(** * Gold ledger: valuation utilities, ledger read cache and transaction form

    A shallow embedding of
    - [src/lib/utils/ledger-utils.ts]   (module [LedgerUtils]),
    - the API service with its ledger cache (module [ApiService]),
    - the derivation effect and the submit handler of the
      new-transaction form (module [NewTransaction]),
    followed by the properties proved about them.

    JavaScript numbers are IEEE 754 binary64 values.  They are modelled by
    [spec_float] of the Standard Library with [prec = 53] and [emax = 1024];
    [*] and [/] are the correctly rounded [SFmul] and [SFdiv]. *)

From stdpp Require Import gmap strings.
From Stdlib Require Import ZArith QArith Lia Bool.
From Stdlib.Floats Require Import SpecFloat.

Local Open Scope Z_scope.

(* ===================================================================== *)
(** ** JavaScript numbers                                                  *)
(* ===================================================================== *)

Module JS.

Definition prec : Z := 53.
Definition emax : Z := 1024.

(** The type [number]. *)
Definition number : Type := spec_float.

Definition NaN : number := S754_nan.
Definition Infinity : number := S754_infinity false.
Definition neg_Infinity : number := S754_infinity true.

(** Binary operators of the language. *)
Definition mul : number -> number -> number := SFmul prec emax.
Definition div : number -> number -> number := SFdiv prec emax.
Definition sub : number -> number -> number := SFsub prec emax.

(** Integer literals, and decimal literals [z / 10^k]: a correctly
    rounded quotient of two exactly represented integers is the double
    nearest to the decimal, which is what the literal denotes. *)
Definition of_int (z : Z) : number := binary_normalize prec emax z 0 false.
Definition dec (z : Z) (k : nat) : number :=
  div (of_int z) (of_int (10 ^ Z.of_nat k)).

(** [Number.isFinite]. *)
Definition isFinite (x : number) : bool :=
  match x with
  | S754_zero _ | S754_finite _ _ _ => true
  | S754_infinity _ | S754_nan => false
  end.

(** [Math.abs(x)] and the comparison [x <= y]. *)
Definition Math_abs : number -> number := SFabs.
Definition le : number -> number -> bool := SFleb.

(** The comparison [x < y]. *)
Definition lt : number -> number -> bool := SFltb.

(** The number is [+0], positive or [+Infinity]: not NaN, sign bit clear. *)
Definition sign_clear (x : number) : bool :=
  match x with
  | S754_zero false | S754_infinity false | S754_finite false _ _ => true
  | _ => false
  end.

(** [ToBoolean] on a number: [+0], [-0] and [NaN] are falsy. *)
Definition truthy (x : number) : bool :=
  match x with
  | S754_zero _ | S754_nan => false
  | S754_infinity _ | S754_finite _ _ _ => true
  end.


(** The mathematical integer [(-1)^s * m]. *)
Definition signed (s : bool) (m : positive) : Z := cond_Zopp s (Z.pos m).

(** The binary64 representation of the integer [(-1)^s * n] for
    [0 < n < 2^53]: the mantissa is [n] shifted left to 53 bits. *)
Definition canon (s : bool) (n : positive) : number :=
  let '(m, e) := shl_align n 0 (Z.pos (digits2_pos n) - prec) in
  S754_finite s m e.

(** The number whose value is the integer [n]; a zero keeps the sign
    [s] of the argument it was computed from. *)
Definition int_result (s : bool) (n : Z) : number :=
  if n =? 0 then S754_zero s else of_int n.

(** [Math.floor]: the greatest integer not above [x];
    NaN, the infinities, the zeros and integers are returned as they are. *)
Definition Math_floor (x : number) : number :=
  match x with
  | S754_finite s m e =>
      if 0 <=? e then x
      else int_result s (Z.shiftr (signed s m) (- e))
  | _ => x
  end.

(** [Math.round]: the integer nearest to [x], a tie going to the one
    toward plus infinity, that is [floor (x + 1/2)] computed exactly. *)
Definition Math_round (x : number) : number :=
  match x with
  | S754_finite s m e =>
      if 0 <=? e then x
      else int_result s
             (Z.shiftr (2 * signed s m + Z.shiftl 1 (- e)) (- e + 1))
  | _ => x
  end.

(** The rational value of a finite number (0 on the others). *)
Definition value (x : number) : Q :=
  match x with
  | S754_finite s m e =>
      if 0 <=? e then inject_Z (signed s m * 2 ^ e)
      else Qmake (signed s m) (Z.to_pos (2 ^ (- e)))
  | _ => 0%Q
  end.

(** A finite number with an integral value. *)
Definition is_integer (x : number) : bool :=
  match x with
  | S754_zero _ => true
  | S754_finite _ m e =>
      if 0 <=? e then true else Z.pos m mod 2 ^ (- e) =? 0
  | _ => false
  end.

(** Completion of a call: it returns a value or throws. *)
Record Error : Type := mkError { message : string }.

Inductive completion (A : Type) : Type :=
| Return (v : A)
| Throw (e : Error).
Arguments Return {A} v.
Arguments Throw {A} e.

(** A call of a function whose body is [return <arithmetic expression>]:
    arithmetic on numbers never throws, the call completes normally. *)
Definition call1 (f : number -> number) (x : number) : completion number :=
  Return (f x).
Definition call2 (f : number -> number -> number) (x y : number)
  : completion number :=
  Return (f x y).

End JS.

(* ===================================================================== *)
(** ** src/lib/utils/ledger-utils.ts                                       *)
(* ===================================================================== *)

Module LedgerUtils.
Import JS.

(** [Math.round(amount / 5) * 5] *)
Definition roundToNearest5 (amount : number) : number :=
  mul (Math_round (div amount (of_int 5))) (of_int 5).

(** [Math.floor(value * 1000) / 1000] *)
Definition truncateTo3Decimals (value : number) : number :=
  div (Math_floor (mul value (of_int 1000))) (of_int 1000).

(** [truncateTo3Decimals(grossWeight * purity)]; the purity is documented
    as a decimal between 0 and 1. *)
Definition calculatePureWeight (grossWeight purity : number) : number :=
  truncateTo3Decimals (mul grossWeight purity).

End LedgerUtils.

(* ===================================================================== *)
(** ** The API service and its ledger cache                                *)
(* ===================================================================== *)

Module ApiService.
Import JS.

Definition API_BASE_URL : string := "http://localhost:8080".

(** [const CACHE_TTL = 0] *)
Definition CACHE_TTL : Z := 0.

Section Service.
(** [Data] is what [response.json()] yields; the service returns it
    without validating its shape.  [Body] is the type of the objects
    passed to [JSON.stringify] as request bodies. *)
Context {Data Body : Type}.

Record RequestInit : Type := mkInit {
  method : string;
  headers : list (string * string);
  body : Body
}.

(** The arguments of one call of [fetch]. *)
Record Request : Type := mkRequest {
  url : string;
  init : option RequestInit
}.

Record Response : Type := mkResponse {
  ok : bool;
  statusText : string;
  json : completion Data
}.

(** Values of [ledgerCache]: [{ data, timestamp }]. *)
Record CacheEntry : Type := mkEntry {
  data : Data;
  timestamp : Z
}.

Inductive LogLine : Type :=
| LogError (label : string) (e : Error)
| LogInfo (label : string) (d : Data).

(** What the service reads and writes: the module-level cache map, the
    clock behind [Date.now()], the calls of [fetch] made so far and the
    console. *)
Record World : Type := mkWorld {
  ledgerCache : gmap string CacheEntry;
  clock : Z;
  fetched : list Request;
  console : list LogLine
}.

(** The store behind [fetch]: for the [n]-th call and its request, how
    the promise settles (a rejection is a [Throw]) and how many
    milliseconds pass until the awaited body is available. *)
Variable network : nat -> Request -> completion Response * Z.

(** Computations over the world that return or throw. *)
Definition M (A : Type) : Type := World -> World * completion A.

Definition ret {A} (v : A) : M A := fun w => (w, Return v).
Definition throw {A} (e : Error) : M A := fun w => (w, Throw e).
Definition bind {A B} (m : M A) (k : A -> M B) : M B :=
  fun w =>
    match m w with
    | (w', Return v) => k v w'
    | (w', Throw e) => (w', Throw e)
    end.
Definition try_catch {A} (m : M A) (handler : Error -> M A) : M A :=
  fun w =>
    match m w with
    | (w', Return v) => (w', Return v)
    | (w', Throw e) => handler e w'
    end.

Notation "'let*' x ':=' m 'in' k" := (bind m (fun x => k))
  (at level 10, x name, m at level 100, k at level 200).

Definition Date_now : M Z := fun w => (w, Return (clock w)).

Definition fetch (req : Request) : M Response :=
  fun w =>
    let '(outcome, elapsed) := network (length (fetched w)) req in
    (mkWorld (ledgerCache w) (clock w + elapsed)
             (fetched w ++ [req]) (console w),
     outcome).

Definition response_json (response : Response) : M Data :=
  fun w => (w, json response).

Definition console_error (label : string) (error : Error) : M unit :=
  fun w =>
    (mkWorld (ledgerCache w) (clock w) (fetched w)
             (console w ++ [LogError label error]),
     Return tt).

Definition console_log (label : string) (d : Data) : M unit :=
  fun w =>
    (mkWorld (ledgerCache w) (clock w) (fetched w)
             (console w ++ [LogInfo label d]),
     Return tt).

Definition ledgerCache_get (id : string) : M (option CacheEntry) :=
  fun w => (w, Return (ledgerCache w !! id)).

Definition ledgerCache_set (id : string) (entry : CacheEntry) : M unit :=
  fun w =>
    (mkWorld (<[id := entry]> (ledgerCache w)) (clock w) (fetched w)
             (console w),
     Return tt).

Definition ledgerCache_delete (id : string) : M unit :=
  fun w =>
    (mkWorld (delete id (ledgerCache w)) (clock w) (fetched w)
             (console w),
     Return tt).

(** [getLedgers(debouncedSearchValue?)] *)
Definition getLedgers (debouncedSearchValue : option string) : M Data :=
  try_catch
    (let* response :=
       fetch (mkRequest (API_BASE_URL +:+ "/api/ledgers") None) in
     if negb (ok response)
     then throw (mkError ("Error fetching ledgers: "
                            +:+ statusText response))
     else
       let* data := response_json response in
       ret data)
    (fun error =>
       let* _ := console_error "Error fetching ledgers:" error in
       throw (mkError "Failed to fetch ledgers")).

(** [getLedger(id)], with the expiry window as a parameter. *)
Definition getLedger_with (ttl : Z) (id : string) : M Data :=
  let* cachedLedger := ledgerCache_get id in
  let* hit :=
    match cachedLedger with
    | Some entry =>
        let* now := Date_now in
        ret (if now - timestamp entry <? ttl
             then Some (data entry) else None)
    | None => ret None
    end in
  match hit with
  | Some cached => ret cached
  | None =>
      try_catch
        (let* response :=
           fetch (mkRequest (API_BASE_URL +:+ "/api/ledgers/" +:+ id)
                            None) in
         if negb (ok response)
         then throw (mkError ("Error fetching ledger " +:+ id +:+ ": "
                                +:+ statusText response))
         else
           let* data := response_json response in
           let* now := Date_now in
           let* _ := ledgerCache_set id (mkEntry data now) in
           ret data)
        (fun error =>
           let* _ := console_error ("Error fetching ledger " +:+ id
                                      +:+ ":") error in
           throw (mkError "Failed to fetch ledger"))
  end.

(** [getLedger(id)] as deployed. *)
Definition getLedger (id : string) : M Data :=
  getLedger_with CACHE_TTL id.

(** [createTransaction(transaction)]; [ledgerId] reads the property
    [transaction.ledgerId]. *)
Variable ledgerId : Body -> string.

Definition createTransaction (transaction : Body) : M Data :=
  try_catch
    (let* response :=
       fetch (mkRequest
                (API_BASE_URL +:+ "/api/ledgers/"
                   +:+ ledgerId transaction +:+ "/transactions")
                (Some (mkInit "POST"
                              [("Content-Type", "application/json")]
                              transaction))) in
     if negb (ok response)
     then throw (mkError ("Error creating transaction: "
                            +:+ statusText response))
     else
       let* data := response_json response in
       let* _ := ledgerCache_delete (ledgerId transaction) in
       ret data)
    (fun error =>
       let* _ := console_error "Error creating transaction:" error in
       throw (mkError "Failed to create transaction")).

(** [searchLedgers(query)].  [encodeURIComponent] is the built-in; it
    throws a [URIError] on a string with a lone surrogate, and the template
    literal is evaluated inside the [try] block, before [fetch] is called. *)
Variable encodeURIComponent : string -> completion string.

Definition searchLedgers (query : string) : M Data :=
  try_catch
    (let* encoded := (fun w => (w, encodeURIComponent query)) in
     let* response :=
       fetch (mkRequest (API_BASE_URL +:+ "/api/ledgers/search?q="
                           +:+ encoded) None) in
     if negb (ok response)
     then throw (mkError ("Error searching ledgers: "
                            +:+ statusText response))
     else
       let* data := response_json response in
       ret data)
    (fun error =>
       let* _ := console_error "Error searching ledgers:" error in
       throw (mkError "Failed to search ledgers")).

(** [createLedger(name)]; [name_object name] is the object [{ name }]. *)
Variable name_object : string -> Body.

Definition createLedger (name : string) : M Data :=
  try_catch
    (let* response :=
       fetch (mkRequest (API_BASE_URL +:+ "/api/ledgers")
                        (Some (mkInit "POST"
                                      [("Content-Type", "application/json")]
                                      (name_object name)))) in
     if negb (ok response)
     then throw (mkError ("Error creating ledger: "
                            +:+ statusText response))
     else
       let* data := response_json response in
       ret data)
    (fun error =>
       let* _ := console_error "Error creating ledger:" error in
       throw (mkError "Failed to create ledger")).

(** [getLedgerTransactions(ledgerId)] *)
Definition getLedgerTransactions (ledgerId : string) : M Data :=
  try_catch
    (let* response :=
       fetch (mkRequest (API_BASE_URL +:+ "/api/ledgers/" +:+ ledgerId
                           +:+ "/transactions") None) in
     if negb (ok response)
     then throw (mkError ("Error fetching transactions for ledger "
                            +:+ ledgerId +:+ ": " +:+ statusText response))
     else
       let* data := response_json response in
       ret data)
    (fun error =>
       let* _ := console_error ("Error fetching transactions for ledger "
                                  +:+ ledgerId +:+ ":") error in
       throw (mkError "Failed to fetch transactions")).

(** What the awaits of a [try] block yield for a settled [fetch]: the
    parsed body of a 2xx response, or the error raised there (the
    rejection of [fetch], the error built from the status text of a
    non-2xx response, or the rejection of [response.json()]), before
    the [catch] clause handles it.  [describe] builds the message for
    a non-2xx response from its status text. *)
Definition settled (describe : string -> string)
           (outcome : completion Response) : completion Data :=
  match outcome with
  | Throw e => Throw e
  | Return response =>
      if negb (ok response)
      then Throw (mkError (describe (statusText response)))
      else json response
  end.

(** The request [getLedger(id)] sends. *)
Definition ledger_request (id : string) : Request :=
  mkRequest (API_BASE_URL +:+ "/api/ledgers/" +:+ id) None.

(** The request [createTransaction(transaction)] sends. *)
Definition transaction_request (transaction : Body) : Request :=
  mkRequest
    (API_BASE_URL +:+ "/api/ledgers/" +:+ ledgerId transaction
       +:+ "/transactions")
    (Some (mkInit "POST" [("Content-Type", "application/json")]
                  transaction)).

(** An entry for [id] exists and is younger than [ttl] on the clock of
    [w]. *)
Definition fresh (ttl : Z) (id : string) (w : World) : bool :=
  match ledgerCache w !! id with
  | Some entry => clock w - timestamp entry <? ttl
  | None => false
  end.

(** The world when the clock reads [t]. *)
Definition at_time (t : Z) (w : World) : World :=
  mkWorld (ledgerCache w) t (fetched w) (console w).

End Service.

Arguments Request : clear implicits.
Arguments RequestInit : clear implicits.
Arguments Response : clear implicits.
Arguments CacheEntry : clear implicits.
Arguments World : clear implicits.
Arguments LogLine : clear implicits.
Arguments M : clear implicits.

Notation "'let*' x ':=' m 'in' k" := (bind m (fun x => k))
  (at level 10, x name, m at level 100, k at level 200).

End ApiService.

(* ===================================================================== *)
(** ** The new-transaction form                                            *)
(* ===================================================================== *)

Module NewTransaction.
Import JS.

Inductive TransactionType : Type :=
| sale | purchase | metal_received | metal_given
| cash_received | cash_given.

(** Values of the form; an absent field is [undefined]. *)
Record TransactionFormValues : Type := mkValues {
  ledgerId : string;
  type : TransactionType;
  grossWeight : option number;
  purity : option number;
  rate : option number;
  amount : option number;
  paidAmount : option number
}.

(** State of the component: the form and the [useState] cells. *)
Record State : Type := mkState {
  form : TransactionFormValues;
  pureWeight : option number;
  roundedAmount : option number;
  balance : option number;
  showReceipt : bool
}.

(** The object [{ ...data, pureWeight, roundedAmount, balance }]. *)
Record TransactionObject : Type := mkTransaction {
  tx_data : TransactionFormValues;
  tx_pureWeight : option number;
  tx_roundedAmount : option number;
  tx_balance : option number
}.

(** The component's own copies of the utilities. *)
Definition truncateTo3Decimals (value : option number) : option number :=
  match value with
  | None => None
  | Some v => Some (div (Math_floor (mul v (of_int 1000))) (of_int 1000))
  end.

Definition roundToNearest5 (amount : number) : number :=
  mul (Math_round (div amount (of_int 5))) (of_int 5).

(** [type !== "cash_received" && type !== "cash_given"] *)
Definition not_cash (t : TransactionType) : bool :=
  match t with
  | cash_received | cash_given => false
  | _ => true
  end.

Definition setPureWeight (v : option number) (st : State) : State :=
  mkState (form st) v (roundedAmount st) (balance st) (showReceipt st).
Definition setRoundedAmount (v : option number) (st : State) : State :=
  mkState (form st) (pureWeight st) v (balance st) (showReceipt st).
Definition setBalance (v : option number) (st : State) : State :=
  mkState (form st) (pureWeight st) (roundedAmount st) v (showReceipt st).
Definition setShowReceipt (v : bool) (st : State) : State :=
  mkState (form st) (pureWeight st) (roundedAmount st) (balance st) v.

(** [form.setValue("amount", v)] *)
Definition setValue_amount (v : number) (st : State) : State :=
  let f := form st in
  mkState (mkValues (ledgerId f) (type f) (grossWeight f) (purity f)
                    (rate f) (Some v) (paidAmount f))
          (pureWeight st) (roundedAmount st) (balance st) (showReceipt st).

(** One run of the effect "calculate pure weight and rounded amount when
    inputs change".  The watched values are those of the render the effect
    belongs to, so [amount] below is the amount before [setValue]. *)
Definition derivation_effect (st : State) : State :=
  let watched := form st in
  let st1 :=
    match grossWeight watched, purity watched with
    | Some g, Some p =>
        if truthy g && truthy p && not_cash (type watched) then
          let calculatedPureWeight :=
            truncateTo3Decimals (Some (mul g (div p (of_int 100)))) in
          let st' := setPureWeight calculatedPureWeight st in
          match rate watched, calculatedPureWeight with
          | Some r, Some pw =>
              if truthy r && truthy pw then
                let calculatedAmount := mul pw r in
                setValue_amount (roundToNearest5 calculatedAmount) st'
              else st'
          | _, _ => st'
          end
        else setPureWeight None st
    | _, _ => setPureWeight None st
    end in
  let st2 :=
    match amount watched with
    | Some a =>
        if truthy a then setRoundedAmount (Some (roundToNearest5 a)) st1
        else setRoundedAmount None st1
    | None => setRoundedAmount None st1
    end in
  match amount watched, paidAmount watched with
  | Some a, Some paid =>
      if truthy a then setBalance (Some (sub a paid)) st2
      else setBalance None st2
  | _, _ => setBalance None st2
  end.

(** The amount the effect writes with [setValue], if it writes one: it
    is computed from the type, the gross weight, the purity and the rate,
    and does not look at the amount already in the form. *)
Definition auto_amount (v : TransactionFormValues) : option number :=
  match grossWeight v, purity v, rate v with
  | Some g, Some p, Some r =>
      if truthy g && truthy p && not_cash (type v) then
        match truncateTo3Decimals (Some (mul g (div p (of_int 100)))) with
        | Some pw =>
            if truthy r && truthy pw
            then Some (roundToNearest5 (mul pw r)) else None
        | None => None
        end
      else None
  | _, _, _ => None
  end.

(** The effect runs after a render and again after the render that its
    own [setValue] causes; after that nothing it depends on changes
    (lemma [settle_stable]). *)
Definition settle (st : State) : State :=
  derivation_effect (derivation_effect st).

(** [transactionSchema]: [z.coerce.number()] leaves a number as it is and
    rejects NaN; [.optional()] accepts [undefined]. *)
Definition is_number (x : number) : bool :=
  match x with
  | S754_nan => false
  | _ => true
  end.

Definition optional (check : number -> bool) (o : option number) : bool :=
  match o with
  | None => true
  | Some x => check x
  end.

Definition transactionSchema (v : TransactionFormValues)
  : option TransactionFormValues :=
  if (1 <=? String.length (ledgerId v))%nat
     && optional is_number (grossWeight v)
     && optional (fun x => is_number x && SFleb (of_int 0) x
                           && SFleb x (of_int 100)) (purity v)
     && optional is_number (rate v)
     && optional is_number (amount v)
     && optional is_number (paidAmount v)
  then Some v else None.

(** The caption under the balance, shown when [balance !== null]:
    [balance > 0 ? "Amount due" : balance < 0 ? "Overpaid" : "Fully paid"]. *)
Definition balance_caption (balance : number) : string :=
  if lt (of_int 0) balance then "Amount due"
  else if lt balance (of_int 0) then "Overpaid"
  else "Fully paid".

#[global] Instance TransactionType_eq_dec : EqDecision TransactionType.
Proof. solve_decision. Defined.

(** [["purchase", "sale", "metal_received", "metal_given"].includes(type)] *)
Definition showWeightFields (t : TransactionType) : bool :=
  bool_decide (t ∈ [purchase; sale; metal_received; metal_given]).

(** [["purchase", "sale", "cash_received", "cash_given"].includes(type)] *)
Definition showAmountField (t : TransactionType) : bool :=
  bool_decide (t ∈ [purchase; sale; cash_received; cash_given]).

Section Submit.
Context {Data : Type}.
Variable network :
  nat -> ApiService.Request TransactionObject
  -> completion (ApiService.Response Data) * Z.

Import ApiService.

(** [onSubmit(data)] *)
Definition onSubmit (data : TransactionFormValues) (st : State)
  : M Data TransactionObject State :=
  try_catch
    (let transaction :=
       mkTransaction data (pureWeight st) (roundedAmount st)
                     (balance st) in
     let* createdTransaction :=
       createTransaction network (fun t => ledgerId (tx_data t))
                         transaction in
     let* _ := console_log "Transaction created successfully:"
                           createdTransaction in
     ret (setShowReceipt true st))
    (fun error =>
       let* _ := console_error "Error creating transaction:" error in
       ret st).

(** [form.handleSubmit(onSubmit)]: the handler is called with the parsed
    values when the schema accepts the form, and not at all otherwise. *)
Definition handleSubmit (st : State) : M Data TransactionObject State :=
  match transactionSchema (form st) with
  | Some data => onSubmit data st
  | None => ret st
  end.

(** The amounts carried by the request bodies of a list of fetches. *)
Definition submitted_amounts
  (l : list (Request TransactionObject)) : list (option number) :=
  omap (fun req =>
          match init req with
          | Some i => Some (amount (tx_data (body i)))
          | None => None
          end) l.

End Submit.

End NewTransaction.

(* ===================================================================== *)
(** ** The dashboard                                                       *)
(* ===================================================================== *)

Module Dashboard.
Import JS ApiService.

Section Component.
Context {Data Body : Type}.
Variable network : nat -> Request Body -> completion (Response Data) * Z.

(** State of the component: [ledgers] holds what [getLedgers] resolved
    to, as it came. *)
Record State : Type := mkState {
  ledgers : Data;
  loading : bool
}.

Definition setLedgers (v : Data) (st : State) : State :=
  mkState v (loading st).
Definition setLoading (v : bool) (st : State) : State :=
  mkState (ledgers st) v.

(** [fetchLedgers()], the body of the effect run on mount. *)
Definition fetchLedgers (st : State) : M Data Body State :=
  try_catch
    (let* ledgers := getLedgers network None in
     ret (setLoading false (setLedgers ledgers st)))
    (fun error =>
       let* _ := console_error "Error fetching ledgers:" error in
       ret st).

End Component.

Arguments State : clear implicits.

End Dashboard.

(* ===================================================================== *)
(** ** The ledger search box                                               *)
(* ===================================================================== *)

Module LedgerSearch.
Import JS ApiService.

Section Component.
Context {Data Body : Type}.
Variable network : nat -> Request Body -> completion (Response Data) * Z.
Variable name_object : string -> Body.

(** State of the component: the [useState] cells, the [name] field of
    the new-ledger form, and the arguments of the calls of the prop
    [onLedgerSelect] made so far.  [ledgers] and the selected ledgers
    hold what the service resolved to, as it came. *)
Record State : Type := mkState {
  open : bool;
  dialogOpen : bool;
  searchValue : string;
  isSearching : bool;
  ledgers : Data;
  name : string;
  selected : list Data
}.

Definition setDialogOpen (v : bool) (st : State) : State :=
  mkState (open st) v (searchValue st) (isSearching st) (ledgers st)
          (name st) (selected st).
Definition setIsSearching (v : bool) (st : State) : State :=
  mkState (open st) (dialogOpen st) (searchValue st) v (ledgers st)
          (name st) (selected st).
Definition setLedgers (v : Data) (st : State) : State :=
  mkState (open st) (dialogOpen st) (searchValue st) (isSearching st) v
          (name st) (selected st).

(** [onLedgerSelect(ledger)] *)
Definition onLedgerSelect (ledger : Data) (st : State) : State :=
  mkState (open st) (dialogOpen st) (searchValue st) (isSearching st)
          (ledgers st) (name st) (selected st ++ [ledger]).

(** [form.reset()]: the form goes back to its default values,
    [{ name: "" }]. *)
Definition form_reset (st : State) : State :=
  mkState (open st) (dialogOpen st) (searchValue st) (isSearching st)
          (ledgers st) "" (selected st).

(** [fetchLedgers()], the body of the effect "load ledgers when search
    value changes". *)
Definition fetchLedgers (debouncedSearchValue : string) (st : State)
  : M Data Body State :=
  let st1 := setIsSearching true st in
  let* st2 :=
    try_catch
      (let* results := getLedgers network (Some debouncedSearchValue) in
       ret (setLedgers results st1))
      (fun error =>
         let* _ := console_error "Error fetching ledgers:" error in
         ret st1) in
  ret (setIsSearching false st2).

(** The [catch] clause of [onSubmit], entered with the component as the
    statements of the [try] block before the throw left it. *)
Definition caught (st : State) (error : Error) : M Data Body State :=
  let* _ := console_error "Error creating ledger:" error in
  ret st.

(** [onSubmit(data)], called with [data.name].  The [try] block has two
    awaits; the second one is reached with the ledger selected, the
    dialog closed and the form reset. *)
Definition onSubmit (data_name : string) (st : State)
  : M Data Body State :=
  try_catch
    (let* newLedger := createLedger network name_object data_name in
     let st1 := onLedgerSelect newLedger st in
     let st2 := setDialogOpen false st1 in
     let st3 := form_reset st2 in
     try_catch
       (let* updatedLedgers := getLedgers network None in
        ret (setLedgers updatedLedgers st3))
       (caught st3))
    (caught st).

End Component.

Arguments State : clear implicits.

End LedgerSearch.

(* ===================================================================== *)
(** ** Definitions that follow the wording of the specification            *)
(* ===================================================================== *)

Module Spec.
Import JS.

(** "[truncateTo3Decimals(grossWeight × purityPercent / 100)]" *)
Definition calculatePureWeight_percent (grossWeight purityPercent : number)
  : number :=
  LedgerUtils.truncateTo3Decimals
    (div (mul grossWeight purityPercent) (of_int 100)).

(** Rounding to the nearest integer with "round-half-away-from-zero at
    the .5 boundary": the magnitude is rounded half up and the sign put
    back. *)
Definition round_half_away_from_zero (x : number) : number :=
  match x with
  | S754_finite s m e =>
      if 0 <=? e then x
      else int_result s
             (cond_Zopp s
                (Z.shiftr (2 * Z.pos m + Z.shiftl 1 (- e)) (- e + 1)))
  | _ => x
  end.

(** "[round(x / 5) × 5], using round-half-away-from-zero" *)
Definition roundToNearest5_half_away (x : number) : number :=
  mul (round_half_away_from_zero (div x (of_int 5))) (of_int 5).

(** "fail with [InvalidInput]" *)
Definition InvalidInput : Error := mkError "InvalidInput".

End Spec.

(* ===================================================================== *)
(** ** Concrete stores, worlds and forms used in the examples              *)
(* ===================================================================== *)

Module Examples.
Import JS ApiService.

(** A world with an empty cache, the clock at 1000 ms, nothing fetched. *)
Definition fresh_start {Data Body : Type} : World Data Body :=
  mkWorld ∅ 1000 [] [].

(** A store that cannot be reached: [fetch] rejects after 3 ms. *)
Definition unreachable {Data Body : Type}
  : nat -> Request Body -> completion (Response Data) * Z :=
  fun _ _ => (Throw (mkError "connect ECONNREFUSED"), 3).

(** A store that answers 404 after 3 ms. *)
Definition not_found {Data Body : Type}
  : nat -> Request Body -> completion (Response Data) * Z :=
  fun _ _ =>
    (Return (mkResponse false "Not Found"
                        (Throw (mkError "Unexpected end of JSON input"))),
     3).

(** A store that answers 200 with the body [d] after 2 ms. *)
Definition serving {Data Body : Type} (d : Data)
  : nat -> Request Body -> completion (Response Data) * Z :=
  fun _ _ => (Return (mkResponse true "OK" (Return d)), 2).

(** A purchase of 10 g at 99.5 % and 50 per gram, for which the caller
    entered the amount 1000. *)
Definition purchase_with_amount : NewTransaction.TransactionFormValues :=
  NewTransaction.mkValues "42" NewTransaction.purchase
    (Some (of_int 10)) (Some (dec 995 1)) (Some (of_int 50))
    (Some (of_int 1000)) None.

(** A cash receipt of 1000, of which 400 are paid. *)
Definition cash_receipt : NewTransaction.TransactionFormValues :=
  NewTransaction.mkValues "42" NewTransaction.cash_received
    None None None (Some (of_int 1000)) (Some (of_int 400)).

(** The component right after the values were entered. *)
Definition entered (v : NewTransaction.TransactionFormValues)
  : NewTransaction.State :=
  NewTransaction.mkState v None None None false.

(** A cache that holds snapshots for the ledgers 42 and 7. *)
Definition two_ledgers {Body : Type} : World string Body :=
  mkWorld (<["42"%string := mkEntry "snapshot 42"%string 900]>
             (<["7"%string := mkEntry "snapshot 7"%string 950]> ∅))
          1000 [] [].

(** A store that answers 500 after 3 ms. *)
Definition failing {Data Body : Type}
  : nat -> Request Body -> completion (Response Data) * Z :=
  fun _ _ =>
    (Return (mkResponse false "Internal Server Error"
                        (Throw (mkError "Unexpected end of JSON input"))),
     3).

End Examples.

(* ===================================================================== *)
(** ** Binary64 arithmetic on integers                                     *)
(* ===================================================================== *)

Section BinaryFacts.
Import JS.

(** *** Digits and shifts *)

Lemma digits2_pos_size (p : positive) : digits2_pos p = Pos.size p.
Proof. induction p; cbn; congruence. Qed.

Lemma digits2_pos_log2 (p : positive) :
  Z.pos (digits2_pos p) = Z.log2 (Z.pos p) + 1.
Proof.
  rewrite digits2_pos_size.
  destruct p; cbn; lia.
Qed.

Lemma iter_xO_pow2 (m d : positive) :
  Z.pos (Pos.iter xO m d) = Z.pos m * 2 ^ Z.pos d.
Proof.
  induction d as [|d IH] using Pos.peano_ind.
  - cbn. lia.
  - rewrite Pos.iter_succ, Pos2Z.inj_xO, IH, Pos2Z.inj_succ.
    rewrite Z.pow_succ_r by lia. lia.
Qed.

Lemma shr_1_even (q : positive) :
  shr_1 {| shr_m := Z.pos q~0; shr_r := false; shr_s := false |}
  = {| shr_m := Z.pos q; shr_r := false; shr_s := false |}.
Proof. reflexivity. Qed.

Lemma iter_pos_shr_1_exact (k : positive) : forall q : positive,
  iter_pos shr_1 k
    {| shr_m := Z.pos (Pos.iter xO q k); shr_r := false; shr_s := false |}
  = {| shr_m := Z.pos q; shr_r := false; shr_s := false |}.
Proof.
  induction k as [k IH|k IH|]; intros q; cbn [iter_pos Pos.iter].
  - rewrite shr_1_even, IH, IH. reflexivity.
  - rewrite IH, IH. reflexivity.
  - reflexivity.
Qed.

Lemma digits2_pos_iter_xO (m d : positive) :
  digits2_pos (Pos.iter xO m d) = (digits2_pos m + d)%positive.
Proof.
  induction d as [|d IH] using Pos.peano_ind.
  - cbn. lia.
  - rewrite Pos.iter_succ. cbn [digits2_pos]. rewrite IH. lia.
Qed.

Lemma fexp_normal (d : Z) :
  -1021 <= d -> fexp prec emax d = d - 53.
Proof. unfold fexp, SpecFloat.emin, prec, emax. lia. Qed.

(** *** Rounding a mantissa that needs no rounding *)

Lemma shr_fexp_aligned (N : positive) (e : Z) :
  digits2_pos N = 53%positive -> -1074 <= e ->
  shr_fexp prec emax (Z.pos N) e loc_Exact
  = ({| shr_m := Z.pos N; shr_r := false; shr_s := false |}, e).
Proof.
  intros Hd He.
  unfold shr_fexp. cbn [Zdigits2 shr_record_of_loc].
  rewrite Hd, fexp_normal by lia.
  replace (53 + e - 53 - e) with 0 by lia.
  reflexivity.
Qed.

Lemma binary_round_aux_exact (s : bool) (N : positive) (k e : Z) :
  digits2_pos N = 53%positive -> 0 <= k -> -1074 <= e + k <= 971 ->
  binary_round_aux prec emax s (Z.pos N * 2 ^ k) e loc_Exact
  = S754_finite s N (e + k).
Proof.
  intros Hd Hk He.
  assert (Hfirst :
    shr_fexp prec emax (Z.pos N * 2 ^ k) e loc_Exact
    = ({| shr_m := Z.pos N; shr_r := false; shr_s := false |}, e + k)).
  { destruct k as [|k|k]; [| |lia].
    - rewrite Z.mul_1_r, Z.add_0_r in *.
      apply shr_fexp_aligned; [assumption|lia].
    - rewrite <- iter_xO_pow2.
      unfold shr_fexp. cbn [Zdigits2 shr_record_of_loc].
      rewrite digits2_pos_iter_xO, Hd, fexp_normal by lia.
      replace (Z.pos (53 + k) + e - 53 - e) with (Z.pos k) by lia.
      cbn [shr]. rewrite iter_pos_shr_1_exact. reflexivity. }
  unfold binary_round_aux. rewrite Hfirst.
  cbn [shr_m loc_of_shr_record round_nearest_even].
  rewrite shr_fexp_aligned by (assumption || lia).
  cbn [shr_m].
  destruct (Z.leb_spec (e + k) (emax - prec)) as [_|Hbad]; [reflexivity|].
  unfold emax, prec in Hbad. lia.
Qed.

Lemma binary_round_aux_aligned (s : bool) (N : positive) (e : Z) :
  digits2_pos N = 53%positive -> -1074 <= e <= 971 ->
  binary_round_aux prec emax s (Z.pos N) e loc_Exact = S754_finite s N e.
Proof.
  intros Hd He.
  pose proof (binary_round_aux_exact s N 0 e Hd) as H.
  rewrite Z.mul_1_r, Z.add_0_r in H. apply H; lia.
Qed.

(** *** Integers below [2^53] are represented exactly *)

Lemma log2_below_2p53 (n : positive) :
  Z.pos n < 2 ^ 53 -> 0 <= Z.log2 (Z.pos n) <= 52.
Proof.
  intros Hn. split; [apply Z.log2_nonneg|].
  assert (Z.log2 (Z.pos n) < 53) by (apply Z.log2_lt_pow2; lia). lia.
Qed.

Lemma canon_spec (s : bool) (n : positive) :
  Z.pos n < 2 ^ 53 ->
  exists N : positive,
    canon s n = S754_finite s N (Z.log2 (Z.pos n) - 52)
    /\ Z.pos N = Z.pos n * 2 ^ (52 - Z.log2 (Z.pos n))
    /\ digits2_pos N = 53%positive.
Proof.
  intros Hn. pose proof (log2_below_2p53 n Hn) as Hlog.
  pose proof (digits2_pos_log2 n) as Hd.
  unfold canon, shl_align, prec.
  replace (Z.pos (digits2_pos n) - 53 - 0) with (Z.log2 (Z.pos n) - 52) by lia.
  replace (Z.pos (digits2_pos n) - 53) with (Z.log2 (Z.pos n) - 52) by lia.
  destruct (Z.log2 (Z.pos n) - 52) as [|j|j] eqn:Hj; [| lia |].
  - exists n. split; [reflexivity|].
    replace (52 - Z.log2 (Z.pos n)) with 0 by lia.
    split; [lia|]. apply Pos2Z.inj. rewrite Hd. lia.
  - exists (Pos.iter xO n j). split; [reflexivity|].
    rewrite iter_xO_pow2.
    replace (52 - Z.log2 (Z.pos n)) with (Z.pos j) by lia.
    split; [reflexivity|].
    rewrite digits2_pos_iter_xO. apply Pos2Z.inj.
    rewrite Pos2Z.inj_add, Hd. lia.
Qed.

Lemma of_int_canon (s : bool) (n : positive) :
  Z.pos n < 2 ^ 53 ->
  of_int (cond_Zopp s (Z.pos n)) = canon s n.
Proof.
  intros Hn. pose proof (log2_below_2p53 n Hn) as Hlog.
  destruct (canon_spec s n Hn) as (N & Hcanon & HN & HdN).
  assert (Hround : binary_round prec emax s n 0 = canon s n).
  { unfold binary_round. rewrite fexp_normal
      by (rewrite digits2_pos_log2; lia).
    rewrite Z.add_0_r.
    revert Hcanon. unfold canon. change 53 with prec.
    destruct (shl_align n 0 (Z.pos (digits2_pos n) - prec)) as [m e].
    remember (Z.log2 (Z.pos n)) as l eqn:Hl.
    intros [= -> ->].
    apply binary_round_aux_aligned; [assumption|lia]. }
  destruct s; exact Hround.
Qed.

(** *** Products and quotients of integers that stay below [2^53] *)

Lemma mul_canon (sa sb : bool) (a b : positive) :
  Z.pos a * Z.pos b < 2 ^ 53 ->
  mul (canon sa a) (canon sb b) = canon (xorb sa sb) (a * b).
Proof.
  intros Hab.
  assert (Ha : Z.pos a < 2 ^ 53) by nia.
  assert (Hb : Z.pos b < 2 ^ 53) by nia.
  assert (Hab' : Z.pos (a * b) < 2 ^ 53) by (rewrite Pos2Z.inj_mul; exact Hab).
  pose proof (log2_below_2p53 a Ha) as Hla.
  pose proof (log2_below_2p53 b Hb) as Hlb.
  pose proof (log2_below_2p53 _ Hab') as Hlab.
  assert (Hbelow : Z.log2 (Z.pos a) + Z.log2 (Z.pos b)
                   <= Z.log2 (Z.pos (a * b)))
    by (rewrite Pos2Z.inj_mul; apply Z.log2_mul_below; lia).
  destruct (canon_spec sa a Ha) as (Na & -> & HNa & HdNa).
  destruct (canon_spec sb b Hb) as (Nb & -> & HNb & HdNb).
  destruct (canon_spec (xorb sa sb) _ Hab') as (Nab & -> & HNab & HdNab).
  remember (Z.log2 (Z.pos a)) as la eqn:Ela.
  remember (Z.log2 (Z.pos b)) as lb eqn:Elb.
  remember (Z.log2 (Z.pos (a * b))) as lab eqn:Elab.
  unfold mul, SFmul.
  assert (Hprod : Z.pos (Na * Nb) = Z.pos Nab * 2 ^ (52 + lab - la - lb)).
  { assert (Hpow : 2 ^ (52 - la) * 2 ^ (52 - lb)
                   = 2 ^ (52 - lab) * 2 ^ (52 + lab - la - lb))
      by (rewrite <- !Z.pow_add_r by lia; f_equal; lia).
    rewrite Pos2Z.inj_mul, HNa, HNb, HNab, Pos2Z.inj_mul.
    transitivity (Z.pos a * Z.pos b * (2 ^ (52 - la) * 2 ^ (52 - lb)));
      [ring | rewrite Hpow; ring]. }
  rewrite Hprod, binary_round_aux_exact by (assumption || lia).
  f_equal. lia.
Qed.

Lemma new_location_zero (n : Z) : new_location n 0 = loc_Exact.
Proof. unfold new_location. destruct (Z.even n); reflexivity. Qed.

Lemma SFdiv_core_binary_exact (N1 N2 : positive) (e1 e2 q : Z) :
  digits2_pos N1 = 53%positive -> digits2_pos N2 = 53%positive ->
  -1021 <= e1 - e2 ->
  Z.pos N1 * 2 ^ 53 = Z.pos N2 * q ->
  SFdiv_core_binary prec emax (Z.pos N1) e1 (Z.pos N2) e2
  = (q, e1 - e2 - 53, loc_Exact).
Proof.
  intros Hd1 Hd2 He Hq.
  unfold SFdiv_core_binary. cbn [Zdigits2]. rewrite Hd1, Hd2.
  replace (53 + e1 - (53 + e2)) with (e1 - e2) by lia.
  rewrite fexp_normal by lia.
  rewrite Z.min_l by lia.
  replace (e1 - e2 - (e1 - e2 - 53)) with 53 by lia.
  cbv iota. rewrite Z.shiftl_mul_pow2 by lia.
  pose proof (Z.div_eucl_eq (Z.pos N1 * 2 ^ 53) (Z.pos N2)) as Heucl.
  assert (Hdiv : (Z.pos N1 * 2 ^ 53) / Z.pos N2 = q)
    by (rewrite Hq, Z.mul_comm; apply Z.div_mul; lia).
  assert (Hmod : (Z.pos N1 * 2 ^ 53) mod Z.pos N2 = 0)
    by (rewrite Hq, Z.mul_comm; apply Z.mod_mul; lia).
  unfold Z.div, Z.modulo in Hdiv, Hmod.
  destruct (Z.div_eucl (Z.pos N1 * 2 ^ 53) (Z.pos N2)) as [q' r'].
  subst q' r'. rewrite new_location_zero. reflexivity.
Qed.

Lemma div_canon (sa sb : bool) (a b : positive) :
  Z.pos a * Z.pos b < 2 ^ 53 ->
  div (canon sa (a * b)) (canon sb b) = canon (xorb sa sb) a.
Proof.
  intros Hab.
  assert (Ha : Z.pos a < 2 ^ 53) by nia.
  assert (Hb : Z.pos b < 2 ^ 53) by nia.
  assert (Hab' : Z.pos (a * b) < 2 ^ 53) by (rewrite Pos2Z.inj_mul; exact Hab).
  pose proof (log2_below_2p53 a Ha) as Hla.
  pose proof (log2_below_2p53 b Hb) as Hlb.
  pose proof (log2_below_2p53 _ Hab') as Hlab.
  assert (Hbelow : Z.log2 (Z.pos a) + Z.log2 (Z.pos b)
                   <= Z.log2 (Z.pos (a * b)))
    by (rewrite Pos2Z.inj_mul; apply Z.log2_mul_below; lia).
  assert (Habove : Z.log2 (Z.pos (a * b))
                   <= Z.log2 (Z.pos a) + Z.log2 (Z.pos b) + 1)
    by (rewrite Pos2Z.inj_mul; apply Z.log2_mul_above; lia).
  destruct (canon_spec (xorb sa sb) a Ha) as (Na & -> & HNa & HdNa).
  destruct (canon_spec sb b Hb) as (Nb & -> & HNb & HdNb).
  destruct (canon_spec sa _ Hab') as (Nab & -> & HNab & HdNab).
  remember (Z.log2 (Z.pos a)) as la eqn:Ela.
  remember (Z.log2 (Z.pos b)) as lb eqn:Elb.
  remember (Z.log2 (Z.pos (a * b))) as lab eqn:Elab.
  unfold div, SFdiv.
  assert (Hquot : Z.pos Nab * 2 ^ 53
                  = Z.pos Nb * (Z.pos Na * 2 ^ (1 + la + lb - lab))).
  { assert (Hpow : 2 ^ (52 - lab) * 2 ^ 53
                   = 2 ^ (52 - lb) * (2 ^ (52 - la) * 2 ^ (1 + la + lb - lab)))
      by (rewrite <- !Z.pow_add_r by lia; f_equal; lia).
    rewrite HNab, HNb, HNa, Pos2Z.inj_mul.
    transitivity (Z.pos a * Z.pos b * (2 ^ (52 - lab) * 2 ^ 53));
      [ring | rewrite Hpow; ring]. }
  rewrite (SFdiv_core_binary_exact Nab Nb _ _ _ HdNab HdNb) by (exact Hquot || lia).
  rewrite binary_round_aux_exact by (assumption || lia).
  f_equal. lia.
Qed.

(** *** [Math.round] and [Math.floor] *)

Lemma cond_Zopp_mul (s : bool) (a b : Z) :
  cond_Zopp s (a * b) = cond_Zopp s a * b.
Proof. destruct s; cbn; lia. Qed.

Lemma shiftr_round_exact (z j : Z) :
  0 <= j -> Z.shiftr (2 * (z * 2 ^ j) + Z.shiftl 1 j) (j + 1) = z.
Proof.
  intros Hj.
  rewrite Z.shiftl_mul_pow2, Z.shiftr_div_pow2, Z.pow_add_r by lia.
  replace (2 * (z * 2 ^ j) + 1 * 2 ^ j) with ((2 * z + 1) * 2 ^ j) by ring.
  rewrite (Z.mul_comm (2 ^ j) (2 ^ 1)).
  rewrite Z.div_mul_cancel_r by lia.
  symmetry. apply Z.div_unique with 1; lia.
Qed.

Lemma int_result_canon (s : bool) (n : positive) :
  Z.pos n < 2 ^ 53 ->
  int_result s (cond_Zopp s (Z.pos n)) = canon s n.
Proof.
  intros Hn. unfold int_result.
  destruct (Z.eqb_spec (cond_Zopp s (Z.pos n)) 0) as [H0|_].
  - destruct s; discriminate H0.
  - apply of_int_canon, Hn.
Qed.

Lemma Math_round_canon (s : bool) (n : positive) :
  Z.pos n < 2 ^ 53 -> Math_round (canon s n) = canon s n.
Proof.
  intros Hn. pose proof (log2_below_2p53 n Hn) as Hlog.
  destruct (canon_spec s n Hn) as (N & Hcanon & HN & _).
  rewrite Hcanon at 1. unfold Math_round.
  destruct (Z.leb_spec 0 (Z.log2 (Z.pos n) - 52)) as [_|He];
    [symmetry; exact Hcanon|].
  unfold signed. rewrite HN, cond_Zopp_mul.
  replace (52 - Z.log2 (Z.pos n)) with (- (Z.log2 (Z.pos n) - 52)) by lia.
  rewrite shiftr_round_exact by lia.
  apply int_result_canon, Hn.
Qed.

(** The integer [z], with the sign [s] when it is zero, as a number. *)
Lemma int_result_cases (s : bool) (z : Z) :
  - 2 ^ 53 < z < 2 ^ 53 ->
  (z = 0 /\ int_result s z = S754_zero s)
  \/ (exists (sz : bool) (n : positive),
        z = cond_Zopp sz (Z.pos n) /\ Z.pos n < 2 ^ 53
        /\ int_result s z = canon sz n).
Proof.
  intros Hz. destruct z as [|p|p].
  - left. split; reflexivity.
  - right. exists false, p. split; [reflexivity|]. split; [lia|].
    apply (of_int_canon false p). lia.
  - right. exists true, p. split; [reflexivity|]. split; [lia|].
    apply (of_int_canon true p). lia.
Qed.

Lemma value_canon (s : bool) (n : positive) :
  Z.pos n < 2 ^ 53 ->
  (value (canon s n) == inject_Z (cond_Zopp s (Z.pos n)))%Q.
Proof.
  intros Hn. pose proof (log2_below_2p53 n Hn) as Hlog.
  destruct (canon_spec s n Hn) as (N & -> & HN & _).
  unfold value, signed.
  destruct (Z.leb_spec 0 (Z.log2 (Z.pos n) - 52)) as [He|He].
  - replace (Z.log2 (Z.pos n) - 52) with 0 by lia.
    replace (52 - Z.log2 (Z.pos n)) with 0 in HN by lia.
    rewrite HN. rewrite !Z.mul_1_r. reflexivity.
  - unfold Qeq. cbn [Qnum Qden inject_Z].
    rewrite Z2Pos.id by (apply Z.pow_pos_nonneg; lia).
    rewrite HN, cond_Zopp_mul.
    replace (52 - Z.log2 (Z.pos n)) with (- (Z.log2 (Z.pos n) - 52)) by lia.
    ring.
Qed.

Lemma is_integer_canon (s : bool) (n : positive) :
  Z.pos n < 2 ^ 53 -> is_integer (canon s n) = true.
Proof.
  intros Hn. pose proof (log2_below_2p53 n Hn) as Hlog.
  destruct (canon_spec s n Hn) as (N & -> & HN & _).
  unfold is_integer.
  destruct (Z.leb_spec 0 (Z.log2 (Z.pos n) - 52)) as [He|He]; [reflexivity|].
  rewrite HN.
  replace (52 - Z.log2 (Z.pos n)) with (- (Z.log2 (Z.pos n) - 52)) by lia.
  rewrite Z.mod_mul by (apply Z.pow_nonzero; lia). reflexivity.
Qed.

Lemma value_int_result (s : bool) (z : Z) :
  - 2 ^ 53 < z < 2 ^ 53 ->
  (value (int_result s z) == inject_Z z)%Q
  /\ is_integer (int_result s z) = true.
Proof.
  intros Hz.
  destruct (int_result_cases s z Hz)
    as [[-> ->] | (sz & n & -> & Hn & ->)].
  - split; reflexivity.
  - split; [apply value_canon, Hn | apply is_integer_canon, Hn].
Qed.

(** The mantissa of a valid number has at most 53 bits. *)
Lemma valid_binary_mantissa (s : bool) (m : positive) (e : Z) :
  valid_binary prec emax (S754_finite s m e) = true -> Z.pos m < 2 ^ 53.
Proof.
  unfold valid_binary, bounded, canonical_mantissa.
  intros H. apply andb_true_iff in H as [H _]. apply Z.eqb_eq in H.
  rewrite digits2_pos_log2 in H.
  unfold fexp, SpecFloat.emin, prec, emax in H.
  apply Z.log2_lt_pow2; lia.
Qed.

Lemma signed_bound (s : bool) (m : positive) :
  Z.pos m < 2 ^ 53 -> - 2 ^ 53 < signed s m < 2 ^ 53.
Proof. destruct s; cbn; lia. Qed.

Lemma round_shift_bounds (M j : Z) :
  1 <= j ->
  (2 * Z.shiftr (2 * M + Z.shiftl 1 j) (j + 1) - 1) * 2 ^ j <= 2 * M
  /\ 2 * M < (2 * Z.shiftr (2 * M + Z.shiftl 1 j) (j + 1) + 1) * 2 ^ j.
Proof.
  intros Hj.
  assert (HP : 2 <= 2 ^ j)
    by (change 2 with (2 ^ 1) at 1; apply Z.pow_le_mono_r; lia).
  rewrite Z.shiftl_mul_pow2, Z.shiftr_div_pow2, Z.pow_add_r by lia.
  pose proof (Z.div_mod (2 * M + 1 * 2 ^ j) (2 ^ j * 2 ^ 1) ltac:(lia))
    as Hdm.
  pose proof (Z.mod_pos_bound (2 * M + 1 * 2 ^ j) (2 ^ j * 2 ^ 1) ltac:(lia))
    as Hmod.
  set (q := (2 * M + 1 * 2 ^ j) / (2 ^ j * 2 ^ 1)) in *.
  nia.
Qed.

(** [Math.round] returns the integer [n] with [n - 1/2 <= x < n + 1/2]. *)
Lemma Math_round_nearest (x : number) :
  isFinite x = true -> valid_binary prec emax x = true ->
  exists n : Z,
    (value (Math_round x) == inject_Z n)%Q
    /\ is_integer (Math_round x) = true
    /\ (inject_Z n - (1 # 2) <= value x)%Q
    /\ (value x < inject_Z n + (1 # 2))%Q.
Proof.
  intros Hfin Hval. destruct x as [s|s| |s m e]; try discriminate Hfin.
  - exists 0. cbn. repeat split; discriminate.
  - pose proof (signed_bound s m (valid_binary_mantissa s m e Hval)) as HM.
    unfold Math_round, value at 2 3, is_integer at 1.
    destruct (Z.leb_spec 0 e) as [He|He].
    + exists (signed s m * 2 ^ e). unfold value, is_integer.
      destruct (Z.leb_spec 0 e) as [_|]; [|lia].
      split; [reflexivity|]. split; [reflexivity|].
      unfold Qle, Qlt, Qminus, Qplus, Qopp, inject_Z; cbn [Qnum Qden].
      lia.
    + set (M := signed s m) in *. set (j := - e).
      assert (Hj : 1 <= j) by (subst j; lia).
      assert (HP : 2 <= 2 ^ j)
        by (change 2 with (2 ^ 1) at 1; apply Z.pow_le_mono_r; lia).
      set (n := Z.shiftr (2 * M + Z.shiftl 1 j) (j + 1)).
      assert (Hn : (2 * n - 1) * 2 ^ j <= 2 * M < (2 * n + 1) * 2 ^ j)
        by (apply round_shift_bounds, Hj).
      exists n.
      destruct (value_int_result s n ltac:(nia)) as [Hv Hi].
      split; [exact Hv|]. split; [exact Hi|].
      unfold Qle, Qlt, Qminus, Qplus, Qopp, inject_Z; cbn [Qnum Qden].
      rewrite Z2Pos.id by lia. lia.
Qed.

(** [Math.floor] returns the integer [n] with [n <= x < n + 1]. *)
Lemma Math_floor_greatest (x : number) :
  isFinite x = true -> valid_binary prec emax x = true ->
  exists n : Z,
    (value (Math_floor x) == inject_Z n)%Q
    /\ is_integer (Math_floor x) = true
    /\ (inject_Z n <= value x)%Q
    /\ (value x < inject_Z n + 1)%Q.
Proof.
  intros Hfin Hval. destruct x as [s|s| |s m e]; try discriminate Hfin.
  - exists 0. cbn. repeat split; discriminate.
  - pose proof (signed_bound s m (valid_binary_mantissa s m e Hval)) as HM.
    unfold Math_floor, value at 2 3, is_integer at 1.
    destruct (Z.leb_spec 0 e) as [He|He].
    + exists (signed s m * 2 ^ e). unfold value, is_integer.
      destruct (Z.leb_spec 0 e) as [_|]; [|lia].
      split; [reflexivity|]. split; [reflexivity|].
      unfold Qle, Qlt, Qplus, inject_Z; cbn [Qnum Qden].
      lia.
    + set (M := signed s m) in *. set (j := - e).
      assert (Hj : 1 <= j) by (subst j; lia).
      assert (HP : 2 <= 2 ^ j)
        by (change 2 with (2 ^ 1) at 1; apply Z.pow_le_mono_r; lia).
      set (n := Z.shiftr M j).
      assert (Hn : n * 2 ^ j <= M < (n + 1) * 2 ^ j).
      { subst n. rewrite Z.shiftr_div_pow2 by lia.
        pose proof (Z.div_mod M (2 ^ j) ltac:(lia)) as Hdm.
        pose proof (Z.mod_pos_bound M (2 ^ j) ltac:(lia)) as Hmod.
        set (q := M / 2 ^ j) in *.
        nia. }
      exists n.
      destruct (value_int_result s n ltac:(nia)) as [Hv Hi].
      split; [exact Hv|]. split; [exact Hi|].
      unfold Qle, Qlt, Qplus, inject_Z; cbn [Qnum Qden].
      rewrite Z2Pos.id by lia. lia.
Qed.

(** *** Rounding in general: the result is a valid number *)

Lemma Zdigits2_log2 (m : Z) :
  0 < m -> Zdigits2 m = Z.log2 m + 1.
Proof.
  destruct m as [|p|p]; try lia. intros _. apply digits2_pos_log2.
Qed.

Lemma shr_1_div2 (mrs : shr_record) :
  0 <= shr_m mrs -> shr_m (shr_1 mrs) = shr_m mrs / 2.
Proof.
  destruct mrs as [m r s]. cbn [shr_m]. intros Hm.
  rewrite <- Z.div2_div.
  destruct m as [|[p|p|]|p]; try lia; reflexivity.
Qed.

Lemma shr_1_nonneg (mrs : shr_record) :
  0 <= shr_m mrs -> 0 <= shr_m (shr_1 mrs).
Proof.
  intros Hm. rewrite shr_1_div2 by assumption. apply Z.div_pos; lia.
Qed.

Lemma iter_pos_shr_1_div (k : positive) : forall mrs : shr_record,
  0 <= shr_m mrs ->
  shr_m (iter_pos shr_1 k mrs) = shr_m mrs / 2 ^ Z.pos k.
Proof.
  assert (Hpow : forall j : positive, 0 < 2 ^ Z.pos j)
    by (intros; apply Z.pow_pos_nonneg; lia).
  induction k as [k IH|k IH|]; intros mrs Hm; cbn [iter_pos].
  - pose proof (Hpow k).
    assert (H1 : 0 <= shr_m (shr_1 mrs)) by (apply shr_1_nonneg, Hm).
    assert (H2 : 0 <= shr_m (iter_pos shr_1 k (shr_1 mrs)))
      by (rewrite IH by assumption; apply Z.div_pos; lia).
    rewrite IH, IH, shr_1_div2 by assumption.
    rewrite !Z.div_div by lia. f_equal.
    rewrite (Pos2Z.inj_xI k).
    replace (2 * Z.pos k + 1) with (1 + Z.pos k + Z.pos k) by lia.
    rewrite !Z.pow_add_r by lia. ring.
  - pose proof (Hpow k).
    assert (H2 : 0 <= shr_m (iter_pos shr_1 k mrs))
      by (rewrite IH by assumption; apply Z.div_pos; lia).
    rewrite IH, IH by assumption.
    rewrite Z.div_div by lia. f_equal.
    rewrite (Pos2Z.inj_xO k).
    replace (2 * Z.pos k) with (Z.pos k + Z.pos k) by lia.
    rewrite Z.pow_add_r by lia. reflexivity.
  - rewrite shr_1_div2 by assumption. reflexivity.
Qed.

(** The first shift of [binary_round_aux]: when no left shift is needed,
    the mantissa is divided by the power of two that brings the exponent
    to [fexp]. *)
Lemma shr_fexp_div (m e : Z) (l : location) :
  0 <= m -> e <= fexp prec emax (Zdigits2 m + e) ->
  exists mrs,
    shr_fexp prec emax m e l = (mrs, fexp prec emax (Zdigits2 m + e))
    /\ shr_m mrs = m / 2 ^ (fexp prec emax (Zdigits2 m + e) - e).
Proof.
  intros Hm He. unfold shr_fexp.
  set (F := fexp prec emax (Zdigits2 m + e)) in *.
  assert (Hrec : shr_m (shr_record_of_loc m l) = m)
    by (destruct l as [|[| |]]; reflexivity).
  destruct (F - e) as [|k|k] eqn:Hk; [| |lia]; cbn [shr].
  - eexists. split; [f_equal; lia|]. rewrite Hrec, Z.div_1_r. reflexivity.
  - eexists. split; [f_equal; lia|].
    rewrite iter_pos_shr_1_div by (rewrite Hrec; exact Hm).
    rewrite Hrec. reflexivity.
Qed.

Lemma round_nearest_even_cases (m : Z) (l : location) :
  round_nearest_even m l = m \/ round_nearest_even m l = m + 1.
Proof.
  destruct l as [|[| |]]; cbn; auto.
  destruct (Z.even m); auto.
Qed.

Lemma fexp_unfold (d : Z) : fexp prec emax d = Z.max (d - 53) (-1074).
Proof. reflexivity. Qed.

Lemma Zdigits2_nonneg_bounds (m : Z) :
  0 <= m ->
  (m = 0 /\ Zdigits2 m = 0)
  \/ (0 < m /\ 2 ^ (Zdigits2 m - 1) <= m < 2 ^ Zdigits2 m
      /\ 1 <= Zdigits2 m).
Proof.
  intros Hm. destruct (Z.eq_dec m 0) as [->|Hne]; [left; split; reflexivity|].
  right. assert (Hpos : 0 < m) by lia. split; [exact Hpos|].
  rewrite (Zdigits2_log2 m Hpos).
  pose proof (Z.log2_spec m Hpos) as Hspec.
  pose proof (Z.log2_nonneg m).
  replace (Z.log2 m + 1 - 1) with (Z.log2 m) by lia.
  replace (Z.succ (Z.log2 m)) with (Z.log2 m + 1) in Hspec by lia.
  lia.
Qed.

Lemma Zdigits2_unique (m d : Z) :
  2 ^ (d - 1) <= m < 2 ^ d -> 1 <= d -> Zdigits2 m = d.
Proof.
  intros Hm Hd.
  assert (Hpos : 0 < m)
    by (assert (0 < 2 ^ (d - 1)) by (apply Z.pow_pos_nonneg; lia); lia).
  rewrite (Zdigits2_log2 m Hpos).
  rewrite (Z.log2_unique m (d - 1)); [lia|lia|].
  replace (Z.succ (d - 1)) with d by lia. exact Hm.
Qed.

Lemma Zdigits2_le (m d : Z) :
  0 <= m -> 0 <= d -> m < 2 ^ d -> Zdigits2 m <= d.
Proof.
  intros Hm Hd Hlt.
  destruct (Zdigits2_nonneg_bounds m Hm) as [[_ ->]|(Hpos & Hb & Hd1)];
    [exact Hd|].
  destruct (Z.le_gt_cases (Zdigits2 m) d) as [|Hgt]; [assumption|].
  assert (2 ^ d <= 2 ^ (Zdigits2 m - 1))
    by (apply Z.pow_le_mono_r; lia).
  lia.
Qed.

(** The shape of a rounded result: the mantissa [m3] and the exponent
    [F2] that [binary_round_aux] arrives at, when the mantissa given needs
    no left shift.  [F2] is the exponent aimed at or the next one, [m3] is
    canonical for it, and the result is above the value given by less than
    one unit of the exponent aimed at. *)
Lemma binary_round_aux_shape (s : bool) (m e : Z) (l : location) :
  0 <= m -> e <= fexp prec emax (Zdigits2 m + e) ->
  exists m3 F2 : Z,
    0 <= m3
    /\ fexp prec emax (Zdigits2 m + e) <= F2
       <= fexp prec emax (Zdigits2 m + e) + 1
    /\ (m3 = 0 \/ fexp prec emax (Zdigits2 m3 + F2) = F2)
    /\ m3 * 2 ^ (F2 - e)
       <= m + 2 ^ (fexp prec emax (Zdigits2 m + e) - e)
    /\ binary_round_aux prec emax s m e l
       = match m3 with
         | 0 => S754_zero s
         | Z.pos p =>
             if F2 <=? emax - prec then S754_finite s p F2
             else S754_infinity s
         | Z.neg _ => S754_nan
         end.
Proof.
  intros Hm He.
  destruct (shr_fexp_div m e l Hm He) as (mrs & Hshr & Hm1).
  set (F := fexp prec emax (Zdigits2 m + e)) in *.
  assert (HF : F = Z.max (Zdigits2 m + e - 53) (-1074)) by reflexivity.
  assert (Hk : 0 <= F - e) by lia.
  assert (Hpk : 0 < 2 ^ (F - e)) by (apply Z.pow_pos_nonneg; lia).
  set (m1 := shr_m mrs) in *.
  (* the mantissa after the first shift *)
  assert (Hm1_lt : 0 <= m1 < 2 ^ 53).
  { rewrite Hm1. split; [apply Z.div_pos; lia|].
    apply Z.div_lt_upper_bound; [lia|].
    rewrite <- Z.pow_add_r by lia.
    destruct (Zdigits2_nonneg_bounds m Hm) as [[-> _]|(_ & Hb & Hd)].
    - apply Z.pow_pos_nonneg; lia.
    - apply Z.lt_le_trans with (2 ^ Zdigits2 m); [lia|].
      apply Z.pow_le_mono_r; lia. }
  assert (Hm1_ge : -1074 < F -> 2 ^ 52 <= m1).
  { intros HFn. rewrite Hm1.
    destruct (Zdigits2_nonneg_bounds m Hm) as [[_ Hd]|(_ & Hb & Hd)].
    - rewrite Hd in HF. lia.
    - apply Z.div_le_lower_bound; [lia|].
      rewrite <- Z.pow_add_r by lia.
      replace (F - e + 52) with (Zdigits2 m - 1) by lia. lia. }
  assert (Hm1_le : m1 * 2 ^ (F - e) <= m).
  { rewrite Hm1, Z.mul_comm. apply Z.mul_div_le. lia. }
  unfold binary_round_aux. rewrite Hshr.
  set (m2 := round_nearest_even (shr_m mrs) (loc_of_shr_record mrs)).
  assert (Hm2 : m2 = m1 \/ m2 = m1 + 1)
    by (apply round_nearest_even_cases).
  assert (Hm2_nonneg : 0 <= m2) by lia.
  assert (HF2 : F <= fexp prec emax (Zdigits2 m2 + F)).
  { rewrite fexp_unfold.
    destruct (Z.eq_dec F (-1074)) as [->|HFn]; [lia|].
    assert (2 ^ 52 <= m2) by (specialize (Hm1_ge ltac:(lia)); lia).
    destruct (Zdigits2_nonneg_bounds m2 Hm2_nonneg)
      as [[-> _]|(_ & Hb & Hd)]; [lia|].
    assert (53 <= Zdigits2 m2); [|lia].
    destruct (Z.le_gt_cases 53 (Zdigits2 m2)) as [|Hlt]; [assumption|].
    assert (2 ^ Zdigits2 m2 <= 2 ^ 52) by (apply Z.pow_le_mono_r; lia).
    lia. }
  destruct (shr_fexp_div m2 F loc_Exact Hm2_nonneg HF2)
    as (mrs2 & Hshr2 & Hm3).
  rewrite Hshr2.
  set (F2 := fexp prec emax (Zdigits2 m2 + F)) in *.
  assert (HF2' : F2 = Z.max (Zdigits2 m2 + F - 53) (-1074)) by reflexivity.
  exists (shr_m mrs2), F2.
  (* the mantissa and the exponent after the second shift *)
  assert (Hfinal : F <= F2 <= F + 1
                   /\ (shr_m mrs2 = 0
                       \/ fexp prec emax (Zdigits2 (shr_m mrs2) + F2) = F2)
                   /\ 0 <= shr_m mrs2
                   /\ shr_m mrs2 * 2 ^ (F2 - F) = m2).
  { destruct (Z.eq_dec m2 (2 ^ 53)) as [Htop|Hntop].
    - assert (Hd2 : Zdigits2 m2 = 54)
        by (apply Zdigits2_unique; [rewrite Htop; cbn; lia | lia]).
      assert (HF2v : F2 = F + 1) by lia.
      assert (Hm3v : shr_m mrs2 = 2 ^ 52)
        by (rewrite Hm3, HF2v, Htop;
            replace (F + 1 - F) with 1 by lia; reflexivity).
      split; [lia|]. split; [|split; [rewrite Hm3v; cbn; lia|]].
      + right. rewrite Hm3v, fexp_unfold.
        change (Zdigits2 (2 ^ 52)) with 53. lia.
      + rewrite Hm3v, HF2v, Htop.
        replace (F + 1 - F) with 1 by lia. reflexivity.
    - assert (Hm2_lt : m2 < 2 ^ 53) by lia.
      assert (Hd2 : Zdigits2 m2 <= 53) by (apply Zdigits2_le; lia).
      assert (HF2v : F2 = F).
      { destruct (Z.eq_dec F (-1074)) as [HFe|HFn]; [lia|].
        assert (2 ^ 52 <= m2) by (specialize (Hm1_ge ltac:(lia)); lia).
        assert (Zdigits2 m2 = 53)
          by (apply Zdigits2_unique; [change (53 - 1) with 52|]; lia).
        lia. }
      assert (Hm3v : shr_m mrs2 = m2)
        by (rewrite Hm3, HF2v, Z.sub_diag; apply Z.div_1_r).
      split; [lia|]. split; [|split; [lia|]].
      + destruct (Z.eq_dec m2 0) as [H0|Hn0]; [left; lia|right].
        rewrite Hm3v, fexp_unfold.
        destruct (Z.eq_dec F (-1074)) as [HFe|HFn]; [lia|].
        assert (2 ^ 52 <= m2) by (specialize (Hm1_ge ltac:(lia)); lia).
        assert (Zdigits2 m2 = 53)
          by (apply Zdigits2_unique; [change (53 - 1) with 52|]; lia).
        lia.
      + rewrite Hm3v, HF2v, Z.sub_diag. lia. }
  destruct Hfinal as (HF2le & Hcanon & Hm3_nonneg & Hm3_m2).
  split; [exact Hm3_nonneg|]. split; [exact HF2le|].
  split; [exact Hcanon|]. split; [|reflexivity].
  replace (F2 - e) with ((F2 - F) + (F - e)) by lia.
  rewrite Z.pow_add_r, Z.mul_assoc, Hm3_m2 by lia.
  nia.
Qed.

(** Rounding yields a valid number, and a finite one unless the exponent
    it aims at is the largest. *)
Lemma binary_round_aux_valid (s : bool) (m e : Z) (l : location) :
  0 <= m -> e <= fexp prec emax (Zdigits2 m + e) ->
  valid_binary prec emax (binary_round_aux prec emax s m e l) = true
  /\ (fexp prec emax (Zdigits2 m + e) < 971 ->
      isFinite (binary_round_aux prec emax s m e l) = true).
Proof.
  intros Hm He.
  destruct (binary_round_aux_shape s m e l Hm He)
    as (m3 & F2 & Hm3 & HF2 & Hcanon & _ & ->).
  destruct m3 as [|p|p]; [split; reflexivity| |lia].
  destruct Hcanon as [Hzero|Hcanon]; [discriminate Hzero|].
  destruct (Z.leb_spec F2 (emax - prec)) as [Hle|Hgt].
  - split; [|reflexivity].
    unfold valid_binary, bounded, canonical_mantissa.
    apply andb_true_iff. split; [apply Z.eqb_eq, Hcanon|].
    apply Z.leb_le, Hle.
  - split; [reflexivity|]. unfold emax, prec in Hgt. lia.
Qed.

(** The mantissa and the exponent of a valid finite number. *)
Lemma valid_binary_finite (s : bool) (m : positive) (e : Z) :
  valid_binary prec emax (S754_finite s m e) = true ->
  1 <= Zdigits2 (Z.pos m) <= 53
  /\ -1074 <= e <= 971
  /\ (Zdigits2 (Z.pos m) = 53 \/ e = -1074).
Proof.
  unfold valid_binary, bounded, canonical_mantissa.
  intros H. apply andb_true_iff in H as [Hc He].
  apply Z.eqb_eq in Hc. apply Z.leb_le in He.
  rewrite fexp_unfold in Hc. unfold emax, prec in He.
  destruct (Zdigits2_nonneg_bounds (Z.pos m) ltac:(lia))
    as [[H0 _]|(_ & _ & Hd)]; [discriminate H0|].
  change (Z.pos (digits2_pos m)) with (Zdigits2 (Z.pos m)) in Hc.
  lia.
Qed.

Lemma Zdigits2_mul_lower (a b : positive) :
  Zdigits2 (Z.pos a) + Zdigits2 (Z.pos b) - 1 <= Zdigits2 (Z.pos (a * b)).
Proof.
  rewrite !Zdigits2_log2, Pos2Z.inj_mul by lia.
  pose proof (Z.log2_mul_below (Z.pos a) (Z.pos b) ltac:(lia) ltac:(lia)).
  lia.
Qed.

(** The product of two valid numbers is a valid number. *)
Lemma mul_valid (x y : number) :
  valid_binary prec emax x = true -> valid_binary prec emax y = true ->
  valid_binary prec emax (mul x y) = true.
Proof.
  destruct x as [sx|sx| |sx mx ex], y as [sy|sy| |sy my ey];
    try reflexivity.
  intros Hx Hy.
  destruct (valid_binary_finite _ _ _ Hx) as (Hdx & Hex & Hnx).
  destruct (valid_binary_finite _ _ _ Hy) as (Hdy & Hey & Hny).
  unfold mul, SFmul.
  apply binary_round_aux_valid; [lia|].
  rewrite fexp_unfold.
  pose proof (Zdigits2_mul_lower mx my). lia.
Qed.

(** The quotient, the exponent and the location computed by the division
    are fit for rounding. *)
Lemma SFdiv_core_binary_fit (m1 m2 : positive) (e1 e2 : Z) :
  exists (q e' : Z) (l : location),
    SFdiv_core_binary prec emax (Z.pos m1) e1 (Z.pos m2) e2 = (q, e', l)
    /\ 0 <= q
    /\ e' <= fexp prec emax (Zdigits2 q + e')
    /\ Zdigits2 q + e'
       <= Z.max (Zdigits2 (Z.pos m1) + e1
                 - (Zdigits2 (Z.pos m2) + e2) + 1) e'
    /\ e' <= e1 - e2
    /\ e' <= fexp prec emax (Zdigits2 (Z.pos m1) + e1
                              - (Zdigits2 (Z.pos m2) + e2))
    /\ q * Z.pos m2 <= Z.pos m1 * 2 ^ (e1 - e2 - e').
Proof.
  unfold SFdiv_core_binary.
  set (d1 := Zdigits2 (Z.pos m1)). set (d2 := Zdigits2 (Z.pos m2)).
  set (e' := Z.min (fexp prec emax (d1 + e1 - (d2 + e2))) (e1 - e2)).
  set (s := e1 - e2 - e').
  assert (Hs : 0 <= s) by (subst s e'; lia).
  set (m' := match s with
             | 0 => Z.pos m1
             | Z.pos _ => Z.shiftl (Z.pos m1) s
             | Z.neg _ => 0
             end).
  assert (Hm' : m' = Z.pos m1 * 2 ^ s).
  { subst m'. destruct s as [|p|p] eqn:Hp; [lia| |lia].
    apply Z.shiftl_mul_pow2. lia. }
  assert (Hdiv : fst (Z.div_eucl m' (Z.pos m2)) = m' / Z.pos m2)
    by reflexivity.
  destruct (Z.div_eucl m' (Z.pos m2)) as [q r]. cbn [fst] in Hdiv.
  exists q, e', (new_location (Z.pos m2) r).
  split; [reflexivity|].
  assert (Hps : 0 < 2 ^ s) by (apply Z.pow_pos_nonneg; lia).
  destruct (Zdigits2_nonneg_bounds (Z.pos m1) ltac:(lia))
    as [[H0 _]|(_ & Hb1 & Hd1)]; [discriminate H0|].
  destruct (Zdigits2_nonneg_bounds (Z.pos m2) ltac:(lia))
    as [[H0 _]|(_ & Hb2 & Hd2)]; [discriminate H0|].
  fold d1 in Hb1, Hd1. fold d2 in Hb2, Hd2.
  assert (Hq : 0 <= q) by (rewrite Hdiv; apply Z.div_pos; lia).
  assert (Hnum : 2 ^ (d1 - 1 + s) <= m' < 2 ^ (d1 + s))
    by (rewrite Hm', !Z.pow_add_r by lia; nia).
  assert (HD : d1 + e1 - (d2 + e2) = d1 - d2 + s + e') by (subst s; lia).
  assert (He' : e' <= fexp prec emax (d1 + e1 - (d2 + e2)))
    by (subst e'; lia).
  assert (Hqm : q * Z.pos m2 <= Z.pos m1 * 2 ^ s)
    by (rewrite <- Hm', Hdiv, Z.mul_comm; apply Z.mul_div_le; lia).
  assert (Hrest : e' <= e1 - e2
                  /\ e' <= fexp prec emax (d1 + e1 - (d2 + e2))
                  /\ q * Z.pos m2 <= Z.pos m1 * 2 ^ (e1 - e2 - e'))
    by (split; [lia|split; [exact He'|exact Hqm]]).
  rewrite fexp_unfold in He'.
  split; [exact Hq|].
  cut (e' <= fexp prec emax (Zdigits2 q + e')
       /\ Zdigits2 q + e' <= Z.max (d1 + e1 - (d2 + e2) + 1) e');
    [intros [H1 H2]; split; [exact H1|split; [exact H2|exact Hrest]]|].
  destruct (Zdigits2_nonneg_bounds q Hq) as [[Hq0 Hdq]|(Hqpos & Hbq & Hdq)].
  - (* the quotient is zero: the dividend is below the divisor *)
    assert (Hsmall : m' < Z.pos m2).
    { destruct (Z.lt_ge_cases m' (Z.pos m2)) as [|Hge]; [assumption|].
      assert (1 <= m' / Z.pos m2)
        by (apply Z.div_le_lower_bound; lia).
      lia. }
    assert (Hds : d1 + s <= d2).
    { destruct (Z.le_gt_cases (d1 + s) d2) as [|Hgt]; [assumption|].
      assert (2 ^ d2 <= 2 ^ (d1 - 1 + s)) by (apply Z.pow_le_mono_r; lia).
      lia. }
    rewrite Hdq, fexp_unfold. subst s. lia.
  - (* the quotient has about [d1 + s - d2] digits *)
    assert (Hlow : d1 + s - d2 <= Zdigits2 q).
    { destruct (Z.le_gt_cases (d1 + s - d2) 1) as [|Hbig]; [lia|].
      assert (Hge : 2 ^ (d1 + s - d2 - 1) <= q).
      { rewrite Hdiv. apply Z.div_le_lower_bound; [lia|].
        apply Z.le_trans with (2 ^ d2 * 2 ^ (d1 + s - d2 - 1)).
        - apply Z.mul_le_mono_nonneg_r; [apply Z.pow_nonneg|]; lia.
        - rewrite <- Z.pow_add_r by lia.
          replace (d2 + (d1 + s - d2 - 1)) with (d1 - 1 + s) by lia. lia. }
      destruct (Z.le_gt_cases (d1 + s - d2) (Zdigits2 q)) as [|Hlt];
        [assumption|].
      assert (2 ^ Zdigits2 q <= 2 ^ (d1 + s - d2 - 1))
        by (apply Z.pow_le_mono_r; lia).
      lia. }
    assert (Hhigh : Zdigits2 q <= d1 + s - d2 + 1).
    { destruct (Z.le_gt_cases 0 (d1 + s - d2 + 1)) as [Hnn|Hneg].
      - apply Zdigits2_le; [lia|lia|].
        rewrite Hdiv. apply Z.div_lt_upper_bound; [lia|].
        apply Z.lt_le_trans with (2 ^ (d1 + s)); [lia|].
        apply Z.le_trans with (2 ^ (d2 - 1) * 2 ^ (d1 + s - d2 + 1)).
        + rewrite <- Z.pow_add_r by lia.
          replace (d2 - 1 + (d1 + s - d2 + 1)) with (d1 + s) by lia. lia.
        + apply Z.mul_le_mono_nonneg_r; [apply Z.pow_nonneg|]; lia.
      - (* then the dividend is below the divisor and [q] is zero *)
        assert (m' < Z.pos m2).
        { apply Z.lt_le_trans with (2 ^ (d1 + s)); [lia|].
          apply Z.le_trans with (2 ^ (d2 - 1)); [|lia].
          apply Z.pow_le_mono_r; lia. }
        assert (m' / Z.pos m2 = 0) by (apply Z.div_small; lia).
        lia. }
    rewrite fexp_unfold. subst s. lia.
Qed.

(** A quotient is a valid number. *)
Lemma div_valid (x y : number) :
  valid_binary prec emax (div x y) = true.
Proof.
  destruct x as [sx|sx| |sx mx ex], y as [sy|sy| |sy my ey];
    try reflexivity.
  unfold div, SFdiv.
  destruct (SFdiv_core_binary_fit mx my ex ey)
    as (q & e' & l & -> & Hq & Hfit & _).
  apply binary_round_aux_valid; assumption.
Qed.

(** Dividing a finite number by 5 does not overflow. *)
Lemma div_5_finite (x : number) :
  valid_binary prec emax x = true -> isFinite x = true ->
  isFinite (div x (of_int 5)) = true.
Proof.
  intros Hval Hfin. destruct x as [s|s| |s m e]; try discriminate Hfin.
  - reflexivity.
  - destruct (valid_binary_finite _ _ _ Hval) as (Hd & He & _).
    change (of_int 5) with (S754_finite false 5629499534213120 (-50)).
    unfold div, SFdiv.
    destruct (SFdiv_core_binary_fit m 5629499534213120 e (-50))
      as (q & e' & l & -> & Hq & Hfit & Hdigits & He' & _).
    apply binary_round_aux_valid; [assumption|assumption|].
    rewrite fexp_unfold.
    change (Zdigits2 (Z.pos 5629499534213120)) with 53 in Hdigits.
    lia.
Qed.

(** *** Rounding the fifth of a number up to [2^52] *)

Lemma abs_le_2p52 (s : bool) (m : positive) (e : Z) :
  valid_binary prec emax (S754_finite s m e) = true ->
  le (Math_abs (S754_finite s m e)) (of_int (2 ^ 52)) = true ->
  e <= 0 /\ Z.pos m <= 2 ^ (52 - e).
Proof.
  intros Hval Hle.
  pose proof (valid_binary_mantissa s m e Hval) as Hm. clear Hval.
  change (of_int (2 ^ 52)) with (S754_finite false 4503599627370496 0) in Hle.
  unfold le, Math_abs, SFleb, SFabs, SFcompare in Hle.
  destruct (Z.compare_spec e 0) as [He|Hneg|Hpos].
  - split; [lia|].
    rewrite Pos.compare_cont_spec in Hle. cbn [Pos.switch_Eq] in Hle.
    rewrite He. change (2 ^ (52 - 0)) with (Z.pos 4503599627370496).
    destruct (Pos.compare_spec m 4503599627370496) as [Heq|Hlt|Hgt].
    + rewrite Heq. apply Z.le_refl.
    + apply Z.lt_le_incl. exact Hlt.
    + discriminate Hle.
  - clear Hle. split; [lia|].
    apply Z.le_trans with (2 ^ 53); [lia|].
    apply Z.pow_le_mono_r; lia.
  - discriminate Hle.
Qed.

Lemma Math_round_div_5_small (x : number) :
  valid_binary prec emax x = true -> isFinite x = true ->
  le (Math_abs x) (of_int (2 ^ 52)) = true ->
  exists (s : bool) (k : Z),
    Math_round (div x (of_int 5)) = int_result s k
    /\ - 2 ^ 53 < 5 * k < 2 ^ 53.
Proof.
  intros Hval Hfin Hle. destruct x as [s|s| |s m e]; try discriminate Hfin.
  - exists (xorb s false), 0. split; [reflexivity|lia].
  - destruct (abs_le_2p52 s m e Hval Hle) as (He & Hm).
    destruct (valid_binary_finite _ _ _ Hval) as (Hd & _ & _).
    destruct (Zdigits2_nonneg_bounds (Z.pos m) ltac:(lia))
      as [[H0 _]|(_ & Hbm & _)]; [discriminate H0|].
    assert (Hde : Zdigits2 (Z.pos m) + e <= 53).
    { destruct (Z.le_gt_cases (Zdigits2 (Z.pos m) + e) 53) as [|Hgt];
        [assumption|].
      assert (2 ^ (52 - e + 1) <= 2 ^ (Zdigits2 (Z.pos m) - 1))
        by (apply Z.pow_le_mono_r; lia).
      assert (2 ^ (52 - e) < 2 ^ (52 - e + 1))
        by (apply Z.pow_lt_mono_r; lia).
      lia. }
    change (of_int 5) with (S754_finite false 5629499534213120 (-50)).
    unfold div, SFdiv.
    destruct (SFdiv_core_binary_fit m 5629499534213120 e (-50))
      as (q0 & e0 & l & -> & Hq & Hfit & Hdig & He0 & He0f & Hqm).
    change (Zdigits2 (Z.pos 5629499534213120)) with 53 in Hdig, He0f.
    rewrite fexp_unfold in He0f.
    destruct (binary_round_aux_shape (xorb s false) q0 e0 l Hq Hfit)
      as (m3 & F2 & Hm3 & HF2 & _ & Hbound & ->).
    rewrite fexp_unfold in HF2, Hbound.
    set (F := Z.max (Zdigits2 q0 + e0 - 53) (-1074)) in *.
    assert (HFle : F <= -2) by (subst F; lia).
    assert (HFge : e0 <= F)
      by (rewrite fexp_unfold in Hfit; exact Hfit).
    destruct m3 as [|p|p]; [| |lia].
    { exists (xorb s false), 0. split; [reflexivity|lia]. }
    destruct (Z.leb_spec F2 (emax - prec)) as [_|Hbad];
      [|unfold emax, prec in Hbad; lia].
    unfold Math_round.
    destruct (Z.leb_spec 0 F2) as [|_]; [lia|].
    eexists (xorb s false), _. split; [reflexivity|].
    destruct (round_shift_bounds (signed (xorb s false) p) (- F2) ltac:(lia))
      as [Hlow Hhigh].
    set (k := Z.shiftr (2 * signed (xorb s false) p + Z.shiftl 1 (- F2))
                       (- F2 + 1)) in *.
    (* the powers of two involved *)
    set (J := 2 ^ (- F2)) in *.
    set (A := 2 ^ (F2 - e0)) in *.
    set (B := 2 ^ (F - e0)) in *.
    set (P0 := 2 ^ (- e0)).
    assert (HJ : 0 < J) by (apply Z.pow_pos_nonneg; lia).
    assert (HA : 0 < A) by (apply Z.pow_pos_nonneg; lia).
    assert (HB : 0 < B) by (apply Z.pow_pos_nonneg; lia).
    assert (HJA : J * A = P0)
      by (subst J A P0; rewrite <- Z.pow_add_r by lia; f_equal; lia).
    assert (HB4 : 4 * B <= P0).
    { subst B P0. change 4 with (2 ^ 2). rewrite <- Z.pow_add_r by lia.
      apply Z.pow_le_mono_r; lia. }
    assert (Hq5 : 5 * q0 <= 2 ^ 52 * P0).
    { assert (Hnum : Z.pos m * 2 ^ (e - -50 - e0)
                     <= 2 ^ (52 - e) * 2 ^ (e - -50 - e0))
        by (apply Z.mul_le_mono_nonneg_r; [apply Z.pow_nonneg|]; lia).
      rewrite <- Z.pow_add_r in Hnum by lia.
      replace (52 - e + (e - -50 - e0)) with (50 + (52 + - e0)) in Hnum
        by lia.
      rewrite !Z.pow_add_r in Hnum by lia. fold P0 in Hnum.
      change (Z.pos 5629499534213120) with (5 * 2 ^ 50) in Hqm.
      assert (0 < 2 ^ 50) by (apply Z.pow_pos_nonneg; lia).
      nia. }
    assert (Hcancel : forall c : Z, c * P0 <= 0 -> c <= 0) by (intros; nia).
    clear Hbm Hm Hqm Hde Hdig He0f HF2 HFle HFge He0 Hfit Hd.
    destruct (xorb s false); cbn [signed cond_Zopp] in Hlow, Hhigh.
    + (* a negative quotient *)
      assert (Hk0 : k <= 0).
      { apply Z.lt_succ_r, Z.mul_lt_mono_pos_r with (2 * J); lia. }
      assert (Hk1 : (- 2 * k - 1) * P0 <= 2 * q0 + 2 * B).
      { rewrite <- HJA.
        apply Z.le_trans with (2 * Z.pos p * A); [|lia].
        rewrite Z.mul_assoc. apply Z.mul_le_mono_nonneg_r; lia. }
      split; [|lia].
      assert (- (40 * k) - (2 ^ 55 + 30) <= 0); [|lia].
      apply Hcancel. lia.
    + (* a positive quotient *)
      assert (Hk0 : 0 <= k).
      { apply Z.lt_succ_r, Z.mul_lt_mono_pos_r with (2 * J); lia. }
      assert (Hk1 : (2 * k - 1) * P0 <= 2 * q0 + 2 * B).
      { rewrite <- HJA.
        apply Z.le_trans with (2 * Z.pos p * A); [|lia].
        rewrite Z.mul_assoc. apply Z.mul_le_mono_nonneg_r; lia. }
      split; [lia|].
      assert (40 * k - (2 ^ 55 + 30) <= 0); [|lia].
      apply Hcancel. lia.
Qed.

End BinaryFacts.

(* ===================================================================== *)
(** ** Properties of the valuation utilities                               *)
(* ===================================================================== *)

Section LedgerUtilsFacts.
Import JS LedgerUtils.

(** C1, as stated, fails: with the purity given as the percentage 99.5
    the function returns 995, which is neither 9.95 nor what the formula
    with the division by 100 gives. *)
Lemma calculatePureWeight_percent_counterexample :
  calculatePureWeight (of_int 10) (dec 995 1) = of_int 995
  /\ calculatePureWeight (of_int 10) (dec 995 1) <> dec 995 2
  /\ calculatePureWeight (of_int 10) (dec 995 1)
     <> Spec.calculatePureWeight_percent (of_int 10) (dec 995 1).
Proof. vm_compute. repeat split; discriminate. Qed.

(** C1 (amended): [calculatePureWeight(grossWeight, purity)] takes the
    purity as a decimal fraction and equals
    [truncateTo3Decimals(grossWeight × purity)], with no division by 100.
    A percentage [p] passed as [p / 100] gives the pure weight the form
    computes, [truncateTo3Decimals(grossWeight × (p / 100))].  In
    particular [calculatePureWeight(10, 0.995) = 9.95],
    [calculatePureWeight(10, 99.5 / 100) = 9.95] and
    [calculatePureWeight(10, 99.5) = 995]. *)
Theorem calculatePureWeight_fraction :
  (forall grossWeight purity : number,
      calculatePureWeight grossWeight purity
      = truncateTo3Decimals (mul grossWeight purity))
  /\ (forall grossWeight p : number,
         NewTransaction.truncateTo3Decimals
           (Some (mul grossWeight (div p (of_int 100))))
         = Some (calculatePureWeight grossWeight (div p (of_int 100))))
  /\ calculatePureWeight (of_int 10) (dec 995 3) = dec 995 2
  /\ calculatePureWeight (of_int 10) (div (dec 995 1) (of_int 100))
     = dec 995 2
  /\ calculatePureWeight (of_int 10) (dec 995 1) = of_int 995.
Proof.
  split; [reflexivity|].
  split; [reflexivity|].
  repeat split; vm_compute; reflexivity.
Qed.

(** Non-finite arguments flow through the arithmetic. *)
Lemma truncateTo3Decimals_not_finite (x : number) :
  isFinite x = false -> isFinite (truncateTo3Decimals x) = false.
Proof. destruct x as [s|[|]| |s m e]; simpl; intros H; try discriminate H; reflexivity. Qed.

Lemma mul_not_finite (x y : number) :
  isFinite x = false \/ isFinite y = false -> isFinite (mul x y) = false.
Proof.
  destruct x as [sx|sx| |sx mx ex], y as [sy|sy| |sy my ey];
    simpl; intros [H|H]; try discriminate H; reflexivity.
Qed.

(** C8, as stated, fails: on NaN and on the infinities the three
    functions return (NaN or an infinity); none of them fails with
    [InvalidInput]. *)
Lemma no_InvalidInput_counterexample :
  call1 truncateTo3Decimals NaN = Return NaN
  /\ call1 roundToNearest5 Infinity = Return Infinity
  /\ call2 calculatePureWeight neg_Infinity (of_int 1) = Return neg_Infinity
  /\ call1 truncateTo3Decimals NaN <> Throw Spec.InvalidInput
  /\ call1 roundToNearest5 Infinity <> Throw Spec.InvalidInput
  /\ call2 calculatePureWeight neg_Infinity (of_int 1)
     <> Throw Spec.InvalidInput.
Proof. vm_compute. repeat split; discriminate. Qed.

(** C8 (amended): the three functions never fail.  Every call, on finite
    and on non-finite arguments alike, returns a number; when an argument
    is NaN or an infinity the result is again NaN or an infinity (NaN for
    NaN and the same infinity for an infinity, for the one-argument
    functions). *)
Theorem valuation_functions_never_throw (x y : number) :
  call1 truncateTo3Decimals x = Return (truncateTo3Decimals x)
  /\ call1 roundToNearest5 x = Return (roundToNearest5 x)
  /\ call2 calculatePureWeight x y = Return (calculatePureWeight x y)
  /\ (isFinite x = false ->
      truncateTo3Decimals x = x /\ roundToNearest5 x = x)
  /\ (isFinite x = false \/ isFinite y = false ->
      isFinite (calculatePureWeight x y) = false).
Proof.
  repeat split.
  - destruct x as [s|[|]| |s m e]; simpl in *; try discriminate; reflexivity.
  - destruct x as [s|[|]| |s m e]; simpl in *; try discriminate; reflexivity.
  - intros H. apply truncateTo3Decimals_not_finite, mul_not_finite, H.
Qed.

Lemma valuation_functions_never_throw_witness :
  (truncateTo3Decimals NaN = NaN /\ roundToNearest5 NaN = NaN)
  /\ isFinite (calculatePureWeight Infinity (of_int 0)) = false.
Proof.
  destruct (valuation_functions_never_throw NaN NaN) as (_ & _ & _ & H1 & _).
  destruct (valuation_functions_never_throw Infinity (of_int 0))
    as (_ & _ & _ & _ & H2).
  split; [apply H1; reflexivity | apply H2; left; reflexivity].
Defined.

(** Rounding to a multiple of 5 *)

Lemma of_int_5 : of_int 5 = canon false 5.
Proof. apply (of_int_canon false 5). lia. Qed.

(** A multiple of 5 below [2^53] is a fixed point. *)
Lemma roundToNearest5_multiple (s : bool) (n : positive) :
  Z.pos n * 5 < 2 ^ 53 ->
  roundToNearest5 (canon s (n * 5)) = canon s (n * 5).
Proof.
  intros Hn. unfold roundToNearest5. rewrite of_int_5.
  rewrite div_canon by exact Hn.
  rewrite xorb_false_r, Math_round_canon by lia.
  rewrite mul_canon by exact Hn.
  rewrite xorb_false_r. reflexivity.
Qed.

(** C5, as stated, fails: -12.5 / 5 = -2.5 lies on the .5 boundary;
    [Math.round] takes it to -2, so the result is -10, where rounding half
    away from zero gives -15. *)
Lemma roundToNearest5_half_away_counterexample :
  div (dec (-125) 1) (of_int 5) = dec (-25) 1
  /\ roundToNearest5 (dec (-125) 1) = of_int (-10)
  /\ Spec.roundToNearest5_half_away (dec (-125) 1) = of_int (-15)
  /\ roundToNearest5 (dec (-125) 1)
     <> Spec.roundToNearest5_half_away (dec (-125) 1).
Proof. vm_compute. repeat split; discriminate. Qed.

(** C5 (amended): for every finite [x], [roundToNearest5(x)] is
    [Math.round(x / 5) × 5], where the quotient [x / 5] is finite and
    [Math.round(x / 5)] is the integer [n] with
    [n - 1/2 <= x / 5 < n + 1/2]: a quotient on the .5 boundary goes to the
    integer toward plus infinity (round half up), for negative [x] as well,
    where that is toward zero.  In particular
    [roundToNearest5(10092.5) = 10095], [roundToNearest5(10093) = 10095],
    [roundToNearest5(10092) = 10090], and [roundToNearest5(-12.5) = -10],
    [roundToNearest5(-7.5) = -5], [roundToNearest5(7.5) = 10]. *)
Theorem roundToNearest5_rounds_half_up (x : number)
  (Hval : valid_binary prec emax x = true)
  (Hfin : isFinite x = true) :
  roundToNearest5 x = mul (Math_round (div x (of_int 5))) (of_int 5)
  /\ isFinite (div x (of_int 5)) = true
  /\ (exists n : Z,
        (value (Math_round (div x (of_int 5))) == inject_Z n)%Q
        /\ is_integer (Math_round (div x (of_int 5))) = true
        /\ (inject_Z n - (1 # 2) <= value (div x (of_int 5)))%Q
        /\ (value (div x (of_int 5)) < inject_Z n + (1 # 2))%Q)
  /\ roundToNearest5 (dec 100925 1) = of_int 10095
  /\ roundToNearest5 (of_int 10093) = of_int 10095
  /\ roundToNearest5 (of_int 10092) = of_int 10090
  /\ roundToNearest5 (dec (-125) 1) = of_int (-10)
  /\ roundToNearest5 (dec (-75) 1) = of_int (-5)
  /\ roundToNearest5 (dec 75 1) = of_int 10.
Proof.
  split; [reflexivity|].
  split; [apply div_5_finite; assumption|].
  split.
  { apply Math_round_nearest; [apply div_5_finite; assumption|].
    apply div_valid. }
  repeat split; vm_compute; reflexivity.
Qed.

Lemma roundToNearest5_rounds_half_up_witness :
  exists n : Z,
    (value (Math_round (div (dec (-125) 1) (of_int 5))) == inject_Z n)%Q
    /\ (inject_Z n - (1 # 2) <= value (div (dec (-125) 1) (of_int 5)))%Q
    /\ (value (div (dec (-125) 1) (of_int 5)) < inject_Z n + (1 # 2))%Q.
Proof.
  destruct (roundToNearest5_rounds_half_up (dec (-125) 1) eq_refl eq_refl)
    as (_ & _ & (n & Hn & _ & Hlow & Hhigh) & _).
  exists n. split; [exact Hn|]. split; [exact Hlow|exact Hhigh].
Defined.

(** C6, as stated, fails: 20000000000000028 is a binary64 number;
    [roundToNearest5] takes it to 20000000000000032 and takes that to
    20000000000000036. *)
Lemma roundToNearest5_not_idempotent_counterexample :
  isFinite (of_int 20000000000000028) = true
  /\ roundToNearest5 (of_int 20000000000000028) = of_int 20000000000000032
  /\ roundToNearest5 (roundToNearest5 (of_int 20000000000000028))
     = of_int 20000000000000036
  /\ roundToNearest5 (roundToNearest5 (of_int 20000000000000028))
     <> roundToNearest5 (of_int 20000000000000028).
Proof. vm_compute. repeat split; discriminate. Qed.

(** Idempotence whenever the multiple of 5 returned is represented
    exactly: [Math.round(x / 5)] is an integer [k] with [|5 k| < 2^53]. *)
Lemma roundToNearest5_idempotent_exact (x : number) (s : bool) (k : Z) :
  Math_round (div x (of_int 5)) = int_result s k ->
  - 2 ^ 53 < 5 * k < 2 ^ 53 ->
  roundToNearest5 (roundToNearest5 x) = roundToNearest5 x.
Proof.
  intros Hround Hk.
  unfold roundToNearest5 at 2 3. rewrite Hround.
  destruct (int_result_cases s k ltac:(lia))
    as [[-> ->] | (sk & n & -> & Hn & ->)].
  - destruct s; vm_compute; reflexivity.
  - assert (Hn5 : Z.pos n * 5 < 2 ^ 53) by (destruct sk; cbn in Hk; lia).
    rewrite of_int_5, mul_canon, xorb_false_r by exact Hn5.
    apply roundToNearest5_multiple, Hn5.
Qed.

(** C6 (amended): [roundToNearest5] is idempotent on every finite [x]
    with [|x| <= 2^52] (about 4.5e15):
    [roundToNearest5(roundToNearest5(x)) = roundToNearest5(x)].  There
    [Math.round(x / 5)] is an integer [k] with [|5 k| < 2^53], so the
    multiple of 5 returned is represented exactly and is a fixed point. *)
Theorem roundToNearest5_idempotent (x : number)
  (Hval : valid_binary prec emax x = true)
  (Hfin : isFinite x = true)
  (Hrange : le (Math_abs x) (of_int (2 ^ 52)) = true) :
  roundToNearest5 (roundToNearest5 x) = roundToNearest5 x.
Proof.
  destruct (Math_round_div_5_small x Hval Hfin Hrange)
    as (s & k & Hround & Hk).
  exact (roundToNearest5_idempotent_exact x s k Hround Hk).
Qed.

Lemma roundToNearest5_idempotent_witness :
  roundToNearest5 (roundToNearest5 (of_int 10093))
  = roundToNearest5 (of_int 10093)
  /\ roundToNearest5 (roundToNearest5 (dec (-125) 1))
     = roundToNearest5 (dec (-125) 1)
  /\ roundToNearest5 (roundToNearest5 (of_int (2 ^ 52)))
     = roundToNearest5 (of_int (2 ^ 52)).
Proof.
  split; [|split].
  - apply (roundToNearest5_idempotent (of_int 10093)); reflexivity.
  - apply (roundToNearest5_idempotent (dec (-125) 1)); reflexivity.
  - apply (roundToNearest5_idempotent (of_int (2 ^ 52))); reflexivity.
Defined.

(** C7, as stated, fails twice.  [truncateTo3Decimals(1.0015)] is the
    number nearest to 1.001, and its product with 1000 is
    1000.9999999999999, not an integer.  And for the number just below
    0.117 the product with 1000 rounds to 117, so the result is 0.117,
    which is above the argument. *)
Lemma truncateTo3Decimals_counterexample :
  truncateTo3Decimals (dec 10015 4) = dec 1001 3
  /\ is_integer (mul (truncateTo3Decimals (dec 10015 4)) (of_int 1000))
     = false
  /\ SFpred prec emax (dec 117 3)
     = S754_finite false 8430738502437568 (-56)
  /\ SFleb (of_int 0) (SFpred prec emax (dec 117 3)) = true
  /\ truncateTo3Decimals (SFpred prec emax (dec 117 3)) = dec 117 3
  /\ SFleb (truncateTo3Decimals (SFpred prec emax (dec 117 3)))
           (SFpred prec emax (dec 117 3))
     = false.
Proof. vm_compute. repeat split; reflexivity. Qed.

(** C7 (amended): for every [x] whose product [x × 1000] is finite (it
    does not overflow), [truncateTo3Decimals(x)] is
    [Math.floor(x × 1000) / 1000], where [Math.floor(x × 1000)] is an
    integer, the greatest one not above the product (truncation toward
    minus infinity, not toward zero: -1.0005 gives -1.001).  The product
    and the quotient are rounded to binary64, so
    [truncateTo3Decimals(x) × 1000] need not be an integer and
    [truncateTo3Decimals(x)] can exceed [x] by one unit in the last place.
    In particular [truncateTo3Decimals(10.96589) = 10.965]. *)
Theorem truncateTo3Decimals_floors (x : number)
  (Hval : valid_binary prec emax x = true)
  (Hfin : isFinite (mul x (of_int 1000)) = true) :
  truncateTo3Decimals x
  = div (Math_floor (mul x (of_int 1000))) (of_int 1000)
  /\ (exists n : Z,
        (value (Math_floor (mul x (of_int 1000))) == inject_Z n)%Q
        /\ is_integer (Math_floor (mul x (of_int 1000))) = true
        /\ (inject_Z n <= value (mul x (of_int 1000)))%Q
        /\ (value (mul x (of_int 1000)) < inject_Z n + 1)%Q)
  /\ truncateTo3Decimals (dec 1096589 5) = dec 10965 3
  /\ truncateTo3Decimals (dec (-10005) 4) = dec (-1001) 3.
Proof.
  split; [reflexivity|].
  split.
  { apply Math_floor_greatest; [assumption|].
    apply mul_valid; [assumption|reflexivity]. }
  split; vm_compute; reflexivity.
Qed.

Lemma truncateTo3Decimals_floors_witness :
  exists n : Z,
    (value (Math_floor (mul (dec (-10005) 4) (of_int 1000))) == inject_Z n)%Q
    /\ (inject_Z n <= value (mul (dec (-10005) 4) (of_int 1000)))%Q
    /\ (value (mul (dec (-10005) 4) (of_int 1000)) < inject_Z n + 1)%Q.
Proof.
  destruct (truncateTo3Decimals_floors (dec (-10005) 4) eq_refl eq_refl)
    as (_ & (n & Hn & _ & Hlow & Hhigh) & _).
  exists n. split; [exact Hn|]. split; [exact Hlow|exact Hhigh].
Defined.

End LedgerUtilsFacts.

(* ===================================================================== *)
(** ** Properties of the API service                                       *)
(* ===================================================================== *)

Section ApiServiceFacts.
Import JS ApiService.
Context {Data Body : Type}.
Variable network : nat -> Request Body -> completion (Response Data) * Z.

Local Abbreviation World := (World Data Body).

(** C9: [getLedgers] does not depend on its search argument.  For any two
    arguments (absent ones included) and any store, the two calls do the
    same thing: the same final world, hence the same requests, and the
    same result; the single request sent is a plain [fetch] of
    [/api/ledgers], without a query. *)
Theorem getLedgers_ignores_search
  (q1 q2 : option string) (w : World) :
  getLedgers network q1 w = getLedgers network q2 w
  /\ fetched (fst (getLedgers network q1 w))
     = fetched w ++ [mkRequest "http://localhost:8080/api/ledgers" None].
Proof.
  split; [reflexivity|].
  unfold getLedgers, try_catch, bind, fetch.
  change (API_BASE_URL +:+ "/api/ledgers")
    with "http://localhost:8080/api/ledgers"%string.
  destruct (network _ _) as [[response|e] elapsed]; simpl; [|reflexivity].
  destruct (ok response); simpl; [|reflexivity].
  unfold response_json.
  destruct (json response); reflexivity.
Qed.

(** A cache hit: no I/O, the world is left as it was. *)
Lemma getLedger_with_hit (ttl : Z) (id : string) (w : World)
      (entry : CacheEntry Data) :
  ledgerCache w !! id = Some entry ->
  clock w - timestamp entry < ttl ->
  getLedger_with network ttl id w = (w, Return (data entry)).
Proof.
  intros Hget Hage.
  unfold getLedger_with, bind, ledgerCache_get, Date_now, ret.
  rewrite Hget.
  destruct (Z.ltb_spec (clock w - timestamp entry) ttl); [reflexivity|lia].
Qed.

(** A miss or an expired entry: one fetch, then either the entry is set
    with the time read after the body arrived, or the error is logged
    and replaced. *)
Lemma getLedger_with_miss (ttl : Z) (id : string) (w : World)
      (outcome : completion (Response Data)) (elapsed : Z) :
  fresh ttl id w = false ->
  network (length (fetched w)) (ledger_request id) = (outcome, elapsed) ->
  getLedger_with network ttl id w
  = match settled (fun status =>
                     "Error fetching ledger " +:+ id +:+ ": " +:+ status)
                  outcome with
    | Return d =>
        (mkWorld (<[id := mkEntry d (clock w + elapsed)]> (ledgerCache w))
                 (clock w + elapsed)
                 (fetched w ++ [ledger_request id]) (console w),
         Return d)
    | Throw e =>
        (mkWorld (ledgerCache w) (clock w + elapsed)
                 (fetched w ++ [ledger_request id])
                 (console w
                    ++ [LogError ("Error fetching ledger " +:+ id +:+ ":")
                                 e]),
         Throw (mkError "Failed to fetch ledger"))
    end.
Proof.
  unfold fresh, ledger_request. intros Hfresh Hnet.
  unfold getLedger_with, bind, ledgerCache_get, Date_now, ret.
  destruct (ledgerCache w !! id) as [entry|]; [rewrite Hfresh|];
    unfold try_catch, fetch, throw, console_error; rewrite Hnet;
    (destruct outcome as [response|e]; simpl; [|reflexivity]);
    (destruct (ok response); simpl; [|reflexivity]);
    unfold response_json, ledgerCache_set;
    destruct (json response); reflexivity.
Qed.

Lemma getLedger_with_miss_fetched (ttl : Z) (id : string) (w : World) :
  fresh ttl id w = false ->
  fetched (fst (getLedger_with network ttl id w))
  = fetched w ++ [ledger_request id].
Proof.
  intros Hfresh.
  destruct (network (length (fetched w)) (ledger_request id))
    as [outcome elapsed] eqn:Hnet.
  rewrite (getLedger_with_miss ttl id w outcome elapsed Hfresh Hnet).
  destruct (settled _ outcome); reflexivity.
Qed.

(** C3 (amended): [get(id)] is a read-through cache.  When an entry for
    [id] exists whose age is below the TTL, it returns the cached
    snapshot and the world, the list of fetches included, is unchanged.
    Otherwise it sends one fetch; when that succeeds the body is stored
    under [id] with the time read after it arrived and is returned; when
    it fails the cache is left as it was, the store's error is written to
    the console and the caller gets the fixed error
    "Failed to fetch ledger" in its place.  Hence, after a successful
    miss, a second call within the TTL sends no further fetch and a call
    made once the TTL has elapsed sends a second one; with the deployed
    [CACHE_TTL = 0] every call fetches as long as the clock is not behind
    the entry's timestamp. *)
Theorem getLedger_read_through
  (ttl : Z) (id : string) (w : World)
  (outcome : completion (Response Data)) (elapsed : Z)
  (Hnet : network (length (fetched w)) (ledger_request id)
          = (outcome, elapsed)) :
  let tried :=
    settled (fun status =>
               "Error fetching ledger " +:+ id +:+ ": " +:+ status)
            outcome in
  (forall entry,
      ledgerCache w !! id = Some entry ->
      clock w - timestamp entry < ttl ->
      getLedger_with network ttl id w = (w, Return (data entry)))
  /\ (fresh ttl id w = false ->
      forall d, tried = Return d ->
      getLedger_with network ttl id w
      = (mkWorld (<[id := mkEntry d (clock w + elapsed)]> (ledgerCache w))
                 (clock w + elapsed)
                 (fetched w ++ [ledger_request id]) (console w),
         Return d))
  /\ (fresh ttl id w = false ->
      forall e, tried = Throw e ->
      getLedger_with network ttl id w
      = (mkWorld (ledgerCache w) (clock w + elapsed)
                 (fetched w ++ [ledger_request id])
                 (console w
                    ++ [LogError ("Error fetching ledger " +:+ id +:+ ":")
                                 e]),
         Throw (mkError "Failed to fetch ledger")))
  /\ (fresh ttl id w = false ->
      forall d, tried = Return d ->
      forall t,
        let w1 := fst (getLedger_with network ttl id w) in
        let second := getLedger_with network ttl id (at_time t w1) in
        (t - clock w1 < ttl ->
         fetched (fst second) = fetched w ++ [ledger_request id]
         /\ snd second = Return d)
        /\ (ttl <= t - clock w1 ->
            fetched (fst second)
            = fetched w ++ [ledger_request id; ledger_request id]))
  /\ ((forall entry,
          ledgerCache w !! id = Some entry -> timestamp entry <= clock w) ->
      fetched (fst (getLedger network id w))
      = fetched w ++ [ledger_request id]).
Proof.
  intros tried.
  split; [intros entry; apply getLedger_with_hit|].
  split.
  { intros Hfresh d Hd.
    rewrite (getLedger_with_miss ttl id w outcome elapsed Hfresh Hnet).
    fold tried. rewrite Hd. reflexivity. }
  split.
  { intros Hfresh e He.
    rewrite (getLedger_with_miss ttl id w outcome elapsed Hfresh Hnet).
    fold tried. rewrite He. reflexivity. }
  split.
  { intros Hfresh d Hd t.
    rewrite (getLedger_with_miss ttl id w outcome elapsed Hfresh Hnet).
    fold tried. rewrite Hd. cbn [fst]. split.
    - intros Hage.
      erewrite getLedger_with_hit; cycle 1.
      + cbn. apply lookup_insert_eq.
      + cbn in *. exact Hage.
      + split; reflexivity.
    - intros Hage.
      rewrite getLedger_with_miss_fetched.
      + cbn. rewrite <- app_assoc. reflexivity.
      + unfold fresh. cbn. rewrite lookup_insert_eq. cbn in *.
        apply Z.ltb_ge. exact Hage. }
  intros Hclock. apply getLedger_with_miss_fetched.
  unfold fresh, CACHE_TTL.
  destruct (ledgerCache w !! id) as [entry|] eqn:Hget; [|reflexivity].
  apply Z.ltb_ge. specialize (Hclock entry eq_refl). lia.
Qed.

Variable ledgerId : Body -> string.

(** One run of [createTransaction], by the way the fetch settles. *)
Lemma createTransaction_run (transaction : Body) (w : World)
      (outcome : completion (Response Data)) (elapsed : Z) :
  network (length (fetched w)) (transaction_request ledgerId transaction)
  = (outcome, elapsed) ->
  createTransaction network ledgerId transaction w
  = match settled (fun status => "Error creating transaction: " +:+ status)
                  outcome with
    | Return d =>
        (mkWorld (delete (ledgerId transaction) (ledgerCache w))
                 (clock w + elapsed)
                 (fetched w ++ [transaction_request ledgerId transaction])
                 (console w),
         Return d)
    | Throw e =>
        (mkWorld (ledgerCache w) (clock w + elapsed)
                 (fetched w ++ [transaction_request ledgerId transaction])
                 (console w ++ [LogError "Error creating transaction:" e]),
         Throw (mkError "Failed to create transaction"))
    end.
Proof.
  unfold transaction_request. intros Hnet.
  unfold createTransaction, try_catch, bind, fetch, throw, console_error.
  rewrite Hnet.
  destruct outcome as [response|e]; simpl; [|reflexivity].
  destruct (ok response); simpl; [|reflexivity].
  unfold response_json, ledgerCache_delete.
  destruct (json response); reflexivity.
Qed.


End ApiServiceFacts.

Section ApiServiceExamples.
Import JS ApiService Examples.

(** C3, as stated, fails: when the fetch fails the caller does not get
    the store's error.  With the store unreachable the error raised by
    [fetch] is "connect ECONNREFUSED", yet [getLedger] throws
    "Failed to fetch ledger"; it throws the very same error when the
    store answers 404. *)
Lemma getLedger_does_not_propagate_counterexample :
  let w0 : World string unit := fresh_start in
  settled (fun status => "Error fetching ledger 42: " +:+ status)
          (fst (unreachable (Data := string) (Body := unit) 0
                            (ledger_request "42")))
  = Throw (mkError "connect ECONNREFUSED")
  /\ snd (getLedger unreachable "42" w0)
     = Throw (mkError "Failed to fetch ledger")
  /\ snd (getLedger unreachable "42" w0)
     <> Throw (mkError "connect ECONNREFUSED")
  /\ snd (getLedger not_found "42" w0)
     = snd (getLedger unreachable "42" w0).
Proof.
  cbv zeta. split; [reflexivity|]. split; [reflexivity|].
  split; [|reflexivity]. vm_compute. discriminate.
Qed.

Lemma getLedger_read_through_witness :
  let net := serving (Body := unit) "snapshot"%string in
  let w0 : World string unit := fresh_start in
  let w1 := fst (getLedger_with net 300000 "42" w0) in
  getLedger_with net 300000 "42" w0
  = (mkWorld (<["42"%string := mkEntry "snapshot"%string 1002]> ∅)
             1002 [ledger_request "42"] [],
     Return "snapshot"%string)
  /\ getLedger_with net 300000 "42" (at_time 200000 w1)
     = (at_time 200000 w1, Return "snapshot"%string)
  /\ fetched (fst (getLedger_with net 300000 "42" (at_time 200000 w1)))
     = [ledger_request "42"]
  /\ fetched (fst (getLedger_with net 300000 "42" (at_time 400000 w1)))
     = [ledger_request "42"; ledger_request "42"]
  /\ fetched (fst (getLedger net "42" w0)) = [ledger_request "42"]
  /\ getLedger_with unreachable 300000 "42" w0
     = (mkWorld ∅ 1003 [ledger_request "42"]
                [LogError "Error fetching ledger 42:"
                          (mkError "connect ECONNREFUSED")],
        Throw (mkError "Failed to fetch ledger")).
Proof.
  intros net w0 w1.
  destruct (getLedger_read_through net 300000 "42" w0 _ _ eq_refl)
    as (_ & Hmiss & _ & Htwice & Hzero).
  destruct (getLedger_read_through net 300000 "42" (at_time 200000 w1)
                                   _ _ eq_refl)
    as (Hhit & _).
  destruct (getLedger_read_through unreachable 300000 "42" w0 _ _ eq_refl)
    as (_ & _ & Hfail & _).
  split; [exact (Hmiss eq_refl _ eq_refl)|].
  split.
  { apply (Hhit (mkEntry "snapshot"%string 1002)); [reflexivity|].
    vm_compute. reflexivity. }
  split.
  { apply (Htwice eq_refl _ eq_refl 200000). vm_compute. reflexivity. }
  split.
  { apply (Htwice eq_refl _ eq_refl 400000). vm_compute. discriminate. }
  split.
  { apply Hzero. intros entry Hentry. discriminate Hentry. }
  exact (Hfail eq_refl _ eq_refl).
Defined.



End ApiServiceExamples.

(* ===================================================================== *)
(** ** Properties of the new-transaction form                              *)
(* ===================================================================== *)

Section NewTransactionFacts.
Import JS NewTransaction.

(** Case analysis on the guards of the effect that are still undecided. *)
Ltac case_guards :=
  repeat match goal with
    | |- context [truthy ?x] => destruct (truthy x); cbn
    | |- context [not_cash ?x] => destruct (not_cash x); cbn
    end.

(** What one run of the effect leaves in the form and in the cells. *)
Lemma derivation_effect_form (st : State) :
  form (derivation_effect st)
  = match auto_amount (form st) with
    | Some derived =>
        mkValues (ledgerId (form st)) (type (form st))
                 (grossWeight (form st)) (purity (form st))
                 (rate (form st)) (Some derived) (paidAmount (form st))
    | None => form st
    end.
Proof.
  destruct st as [[lid ty g p r a paid] pw ra bal sr].
  unfold derivation_effect, auto_amount; cbn.
  destruct g as [g|], p as [p|], r as [r|], a as [a|], paid as [paid|];
    cbn; case_guards; reflexivity.
Qed.

Lemma auto_amount_ignores_amount (v : TransactionFormValues)
      (a : option number) :
  auto_amount (mkValues (ledgerId v) (type v) (grossWeight v) (purity v)
                        (rate v) a (paidAmount v))
  = auto_amount v.
Proof. reflexivity. Qed.

Lemma derivation_effect_amount (st : State) :
  amount (form (derivation_effect st))
  = match auto_amount (form st) with
    | Some derived => Some derived
    | None => amount (form st)
    end.
Proof.
  rewrite derivation_effect_form. destruct (auto_amount (form st)); reflexivity.
Qed.

(** The cells after a run are determined by the form the run watched. *)
Lemma derivation_effect_cells (st1 st2 : State) :
  form st1 = form st2 -> showReceipt st1 = showReceipt st2 ->
  derivation_effect st1 = derivation_effect st2.
Proof.
  destruct st1 as [f1 pw1 ra1 bal1 sr1], st2 as [f2 pw2 ra2 bal2 sr2].
  cbn. intros -> ->.
  destruct f2 as [lid ty g p r a paid].
  unfold derivation_effect; cbn.
  destruct g as [g|], p as [p|], r as [r|], a as [a|], paid as [paid|];
    cbn; case_guards; reflexivity.
Qed.

Lemma derivation_effect_showReceipt (st : State) :
  showReceipt (derivation_effect st) = showReceipt st.
Proof.
  destruct st as [[lid ty g p r a paid] pw ra bal sr].
  unfold derivation_effect; cbn.
  destruct g as [g|], p as [p|], r as [r|], a as [a|], paid as [paid|];
    cbn; case_guards; reflexivity.
Qed.

(** The second run finds the form as the first run left it. *)
Lemma derivation_effect_form_twice (st : State) :
  form (derivation_effect (derivation_effect st))
  = form (derivation_effect st).
Proof.
  destruct (auto_amount (form st)) as [derived|] eqn:Hauto.
  - assert (Hform : form (derivation_effect st)
                    = mkValues (ledgerId (form st)) (type (form st))
                               (grossWeight (form st)) (purity (form st))
                               (rate (form st)) (Some derived)
                               (paidAmount (form st)))
      by (rewrite derivation_effect_form, Hauto; reflexivity).
    rewrite (derivation_effect_form (derivation_effect st)), Hform.
    rewrite auto_amount_ignores_amount, Hauto. reflexivity.
  - assert (Hform : form (derivation_effect st) = form st)
      by (rewrite derivation_effect_form, Hauto; reflexivity).
    rewrite (derivation_effect_form (derivation_effect st)), Hform, Hauto.
    reflexivity.
Qed.

Lemma settle_amount (st : State) :
  amount (form (settle st))
  = match auto_amount (form st) with
    | Some derived => Some derived
    | None => amount (form st)
    end.
Proof.
  unfold settle. rewrite derivation_effect_form_twice.
  apply derivation_effect_amount.
Qed.

(** After two runs a further run changes nothing. *)
Lemma settle_stable (st : State) :
  derivation_effect (settle st) = settle st.
Proof.
  unfold settle. apply derivation_effect_cells.
  - apply derivation_effect_form_twice.
  - apply derivation_effect_showReceipt.
Qed.

Lemma transactionSchema_Some (v data : TransactionFormValues) :
  transactionSchema v = Some data -> data = v.
Proof.
  unfold transactionSchema.
  destruct (_ && _); congruence.
Qed.

Section Submission.
Import ApiService.
Context {Data : Type}.
Variable network :
  nat -> Request TransactionObject -> completion (Response Data) * Z.

(** Whatever the store answers, [onSubmit] sends one request, whose
    body is the object built from the parsed values and the cells. *)
Lemma onSubmit_fetched (data : TransactionFormValues) (st : State)
      (w : World Data TransactionObject) :
  fetched (fst (onSubmit network data st w))
  = fetched w
      ++ [transaction_request
            (fun t => ledgerId (tx_data t))
            (mkTransaction data (pureWeight st) (roundedAmount st)
                           (balance st))].
Proof.
  unfold onSubmit, try_catch, bind.
  destruct (network (length (fetched w))
              (transaction_request
                 (fun t => ledgerId (tx_data t))
                 (mkTransaction data (pureWeight st) (roundedAmount st)
                                (balance st))))
    as [outcome elapsed] eqn:Hnet.
  rewrite (createTransaction_run network _ _ w outcome elapsed Hnet).
  destruct (settled _ outcome); reflexivity.
Qed.

(** C2 (amended): whenever the gross weight, the purity and the rate
    are present and non-zero, the type is not a cash type and the pure
    weight computed from them is non-zero, the form's amount becomes
    [roundToNearest5(pureWeight × rate)], whether or not the caller
    supplied an amount, and that derived amount is what is submitted.
    In every other case the effect leaves the amount alone and the
    supplied amount is submitted unchanged.  A form the schema rejects
    is not submitted. *)
Theorem derived_amount_replaces_supplied_amount
  (st : State) (w : World Data TransactionObject) :
  let st' := settle st in
  (forall g p r pw,
      grossWeight (form st) = Some g ->
      purity (form st) = Some p ->
      rate (form st) = Some r ->
      truthy g = true -> truthy p = true -> truthy r = true ->
      not_cash (type (form st)) = true ->
      truncateTo3Decimals (Some (mul g (div p (of_int 100)))) = Some pw ->
      truthy pw = true ->
      amount (form st') = Some (roundToNearest5 (mul pw r)))
  /\ (auto_amount (form st) = None ->
      amount (form st') = amount (form st))
  /\ (forall data,
         transactionSchema (form st') = Some data ->
         submitted_amounts (fetched (fst (handleSubmit network st' w)))
         = submitted_amounts (fetched w) ++ [amount (form st')])
  /\ (transactionSchema (form st') = None ->
      fetched (fst (handleSubmit network st' w)) = fetched w).
Proof.
  intros st'. subst st'. repeat split.
  - intros g p r pw Hg Hp Hr Tg Tp Tr Hty Hpw Tpw.
    rewrite settle_amount. unfold auto_amount.
    rewrite Hg, Hp, Hr, Tg, Tp, Hty. cbn [andb].
    rewrite Hpw, Tr, Tpw. reflexivity.
  - intros Hauto. rewrite settle_amount, Hauto. reflexivity.
  - intros data Hdata. unfold handleSubmit. rewrite Hdata.
    rewrite onSubmit_fetched.
    unfold submitted_amounts. rewrite omap_app. cbn.
    rewrite (transactionSchema_Some _ _ Hdata). reflexivity.
  - intros Hnone. unfold handleSubmit. rewrite Hnone. reflexivity.
Qed.

End Submission.


End NewTransactionFacts.

Section NewTransactionExamples.
Import JS ApiService NewTransaction Examples.

(** C2, as stated, fails: the caller enters the amount 1000 for a
    purchase of 10 g at 99.5 % and a rate of 50.  The effect computes the
    pure weight 9.95, overwrites the amount with
    [roundToNearest5(9.95 × 50) = 495] (the product is
    497.49999999999994 in binary64), and 495 is what is sent to the
    store. *)
Lemma supplied_amount_is_overwritten_counterexample :
  let st := settle (entered purchase_with_amount) in
  let w0 : World string TransactionObject := fresh_start in
  amount (form (entered purchase_with_amount)) = Some (of_int 1000)
  /\ pureWeight st = Some (dec 995 2)
  /\ submitted_amounts
       (fetched (fst (handleSubmit (serving "created"%string) st w0)))
     = [Some (of_int 495)]
  /\ of_int 495 <> of_int 1000.
Proof.
  cbv zeta. split; [reflexivity|]. split; [vm_compute; reflexivity|].
  split; [vm_compute; reflexivity|]. vm_compute. discriminate.
Qed.

Lemma derived_amount_replaces_supplied_amount_witness :
  let w0 : World string TransactionObject := fresh_start in
  let net := serving "created"%string in
  (amount (form (settle (entered purchase_with_amount)))
   = Some (roundToNearest5 (mul (dec 995 2) (of_int 50)))
   /\ submitted_amounts
        (fetched (fst (handleSubmit net
                         (settle (entered purchase_with_amount)) w0)))
      = [amount (form (settle (entered purchase_with_amount)))])
  /\ (amount (form (settle (entered cash_receipt))) = Some (of_int 1000)
      /\ submitted_amounts
           (fetched (fst (handleSubmit net
                            (settle (entered cash_receipt)) w0)))
         = [amount (form (settle (entered cash_receipt)))])
  /\ fetched (fst (handleSubmit net
                     (settle (entered
                                (mkValues "" purchase None None None
                                          (Some (of_int 5)) None))) w0))
     = [].
Proof.
  intros w0 net.
  destruct (derived_amount_replaces_supplied_amount
              net (entered purchase_with_amount) w0)
    as (Hderived & _ & Hsent & _).
  destruct (derived_amount_replaces_supplied_amount
              net (entered cash_receipt) w0)
    as (_ & Hkept & Hsent' & _).
  destruct (derived_amount_replaces_supplied_amount
              net (entered (mkValues "" purchase None None None
                                     (Some (of_int 5)) None)) w0)
    as (_ & _ & _ & Hrejected).
  split; [split|split; [split|]].
  - apply (Hderived (of_int 10) (dec 995 1) (of_int 50) (dec 995 2));
      vm_compute; reflexivity.
  - apply (Hsent (form (settle (entered purchase_with_amount)))).
    vm_compute. reflexivity.
  - rewrite Hkept; reflexivity.
  - apply (Hsent' (form (settle (entered cash_receipt)))).
    vm_compute. reflexivity.
  - apply Hrejected. vm_compute. reflexivity.
Defined.


End NewTransactionExamples.

(* ===================================================================== *)
(** ** Further properties of the valuation utilities                       *)
(* ===================================================================== *)

Section ValuationMore.
Import JS LedgerUtils.

Lemma of_int_signed (s : bool) (n : positive) (c : positive) :
  Z.pos n * Z.pos c < 2 ^ 53 ->
  of_int (Z.pos c * cond_Zopp s (Z.pos n)) = canon s (n * c).
Proof.
  intros Hn.
  replace (Z.pos c * cond_Zopp s (Z.pos n))
    with (cond_Zopp s (Z.pos (n * c))) by (destruct s; cbn; lia).
  apply of_int_canon. rewrite Pos2Z.inj_mul. exact Hn.
Qed.

(** X1: every multiple of 5 that binary64 represents exactly is left as
    it is:
    [roundToNearest5(5 n) = 5 n] for every integer [n] with
    [|5 n| < 2^53]. *)
Theorem roundToNearest5_fixes_multiples_of_5 (n : Z)
  (Hn : - 2 ^ 53 < 5 * n < 2 ^ 53) :
  roundToNearest5 (of_int (5 * n)) = of_int (5 * n).
Proof.
  destruct n as [|p|p].
  - reflexivity.
  - change (Z.pos p) with (cond_Zopp false (Z.pos p)).
    rewrite (of_int_signed false p 5) by lia.
    apply roundToNearest5_multiple. lia.
  - change (Z.neg p) with (cond_Zopp true (Z.pos p)).
    rewrite (of_int_signed true p 5) by lia.
    apply roundToNearest5_multiple. lia.
Qed.

Lemma roundToNearest5_fixes_multiples_of_5_witness :
  roundToNearest5 (of_int (5 * 2019)) = of_int (5 * 2019)
  /\ roundToNearest5 (of_int (5 * -3)) = of_int (5 * -3).
Proof.
  split; apply roundToNearest5_fixes_multiples_of_5; lia.
Defined.

Lemma Math_floor_canon (s : bool) (n : positive) :
  Z.pos n < 2 ^ 53 -> Math_floor (canon s n) = canon s n.
Proof.
  intros Hn. pose proof (log2_below_2p53 n Hn) as Hlog.
  destruct (canon_spec s n Hn) as (N & Hcanon & HN & _).
  rewrite Hcanon at 1. unfold Math_floor.
  destruct (Z.leb_spec 0 (Z.log2 (Z.pos n) - 52)) as [_|He];
    [symmetry; exact Hcanon|].
  unfold signed. rewrite HN, cond_Zopp_mul.
  replace (52 - Z.log2 (Z.pos n)) with (- (Z.log2 (Z.pos n) - 52)) by lia.
  rewrite Z.shiftr_div_pow2, Z.div_mul by (try apply Z.pow_nonzero; lia).
  apply int_result_canon, Hn.
Qed.

Lemma of_int_1000 : of_int 1000 = canon false 1000.
Proof. apply (of_int_canon false 1000). lia. Qed.

Lemma truncateTo3Decimals_canon (s : bool) (n : positive) :
  Z.pos n * 1000 < 2 ^ 53 ->
  truncateTo3Decimals (canon s n) = canon s n.
Proof.
  intros Hn. unfold truncateTo3Decimals.
  rewrite of_int_1000.
  rewrite mul_canon, xorb_false_r by exact Hn.
  rewrite Math_floor_canon by lia.
  rewrite div_canon, xorb_false_r by exact Hn.
  reflexivity.
Qed.

(** X2: a whole number is left as it is by the truncation:
    [truncateTo3Decimals(n) = n] for every integer [n] with
    [|1000 n| < 2^53]. *)
Theorem truncateTo3Decimals_fixes_integers (n : Z)
  (Hn : - 2 ^ 53 < 1000 * n < 2 ^ 53) :
  truncateTo3Decimals (of_int n) = of_int n.
Proof.
  destruct n as [|p|p].
  - reflexivity.
  - change (Z.pos p) with (cond_Zopp false (Z.pos p)).
    rewrite (of_int_canon false p) by lia.
    apply truncateTo3Decimals_canon. lia.
  - change (Z.neg p) with (cond_Zopp true (Z.pos p)).
    rewrite (of_int_canon true p) by lia.
    apply truncateTo3Decimals_canon. lia.
Qed.

Lemma truncateTo3Decimals_fixes_integers_witness :
  truncateTo3Decimals (of_int 1250) = of_int 1250
  /\ truncateTo3Decimals (of_int (-7)) = of_int (-7).
Proof.
  split; apply truncateTo3Decimals_fixes_integers; lia.
Defined.

(** X3: on every finite [x] with [|x| <= 2^52] the result of
    [roundToNearest5] is an integer, and a multiple of 5. *)
Theorem roundToNearest5_is_multiple_of_5 (x : number)
  (Hval : valid_binary prec emax x = true)
  (Hfin : isFinite x = true)
  (Hrange : le (Math_abs x) (of_int (2 ^ 52)) = true) :
  exists k : Z,
    (value (roundToNearest5 x) == inject_Z (5 * k))%Q
    /\ is_integer (roundToNearest5 x) = true
    /\ - 2 ^ 53 < 5 * k < 2 ^ 53.
Proof.
  destruct (Math_round_div_5_small x Hval Hfin Hrange)
    as (s & k & Hround & Hk).
  exists k. unfold roundToNearest5. rewrite Hround.
  destruct (int_result_cases s k ltac:(lia))
    as [[-> ->] | (sk & n & -> & Hn & ->)].
  - split; [|split; [|lia]]; destruct s; reflexivity.
  - assert (Hn5 : Z.pos n * 5 < 2 ^ 53) by (destruct sk; cbn in Hk; lia).
    rewrite of_int_5, mul_canon, xorb_false_r by exact Hn5.
    split; [|split; [|exact Hk]].
    + rewrite value_canon by (rewrite Pos2Z.inj_mul; exact Hn5).
      replace (cond_Zopp sk (Z.pos (n * 5)))
        with (5 * cond_Zopp sk (Z.pos n)) by (destruct sk; cbn; lia).
      reflexivity.
    + apply is_integer_canon. rewrite Pos2Z.inj_mul. exact Hn5.
Qed.

Lemma roundToNearest5_is_multiple_of_5_witness :
  exists k : Z,
    (value (roundToNearest5 (dec 100925 1)) == inject_Z (5 * k))%Q
    /\ is_integer (roundToNearest5 (dec 100925 1)) = true.
Proof.
  destruct (roundToNearest5_is_multiple_of_5 (dec 100925 1)
              eq_refl eq_refl eq_refl) as (k & Hv & Hi & _).
  exists k. split; [exact Hv|exact Hi].
Defined.

(** *** The sign of the results *)

Lemma shr_nonneg (mrs : shr_record) (e n : Z) :
  0 <= shr_m mrs -> 0 <= shr_m (fst (shr mrs e n)).
Proof.
  intros Hm. destruct n as [|k|k]; cbn [shr fst]; try exact Hm.
  rewrite iter_pos_shr_1_div by exact Hm.
  apply Z.div_pos; [exact Hm|]. apply Z.pow_pos_nonneg; lia.
Qed.

Lemma shr_fexp_nonneg (m e : Z) (l : location) :
  0 <= m -> 0 <= shr_m (fst (shr_fexp prec emax m e l)).
Proof.
  intros Hm. unfold shr_fexp. apply shr_nonneg.
  destruct l as [|[| |]]; exact Hm.
Qed.

(** Rounding a non-negative mantissa with the sign [s] gives a zero, a
    finite number or an infinity of the sign [s], never NaN. *)
Lemma binary_round_aux_sign (s : bool) (m e : Z) (l : location) :
  0 <= m ->
  binary_round_aux prec emax s m e l = S754_zero s
  \/ (exists p e', binary_round_aux prec emax s m e l = S754_finite s p e')
  \/ binary_round_aux prec emax s m e l = S754_infinity s.
Proof.
  intros Hm. unfold binary_round_aux.
  pose proof (shr_fexp_nonneg m e l Hm) as H1.
  destruct (shr_fexp prec emax m e l) as [mrs e1]. cbn [fst] in H1.
  assert (H2 : 0 <= round_nearest_even (shr_m mrs) (loc_of_shr_record mrs))
    by (destruct (round_nearest_even_cases (shr_m mrs)
                    (loc_of_shr_record mrs)) as [-> | ->]; lia).
  pose proof (shr_fexp_nonneg _ e1 loc_Exact H2) as H3.
  destruct (shr_fexp prec emax _ e1 loc_Exact) as [mrs2 e2].
  cbn [fst] in H3.
  destruct (shr_m mrs2) as [|p|p]; [left; reflexivity| |lia].
  destruct (e2 <=? emax - prec); [right; left; eauto|right; right; reflexivity].
Qed.

Lemma binary_round_aux_sign_clear (m e : Z) (l : location) :
  0 <= m -> sign_clear (binary_round_aux prec emax false m e l) = true.
Proof.
  intros Hm.
  destruct (binary_round_aux_sign false m e l Hm)
    as [-> | [(p & e' & ->) | ->]]; reflexivity.
Qed.

Lemma of_int_sign_clear (n : Z) : 0 <= n -> sign_clear (of_int n) = true.
Proof.
  intros Hn. destruct n as [|p|p]; [reflexivity| |lia].
  unfold of_int, binary_normalize, binary_round.
  destruct (shl_align p 0 _) as [mz ez].
  apply binary_round_aux_sign_clear. lia.
Qed.

Lemma int_result_sign_clear (n : Z) :
  0 <= n -> sign_clear (int_result false n) = true.
Proof.
  intros Hn. unfold int_result.
  destruct (n =? 0); [reflexivity|apply of_int_sign_clear, Hn].
Qed.

Lemma Math_floor_sign_clear (x : number) :
  sign_clear x = true -> sign_clear (Math_floor x) = true.
Proof.
  destruct x as [[|]|[|]| |[|] m e]; try discriminate; intros _;
    try reflexivity.
  unfold Math_floor. destruct (0 <=? e); [reflexivity|].
  apply int_result_sign_clear. apply Z.shiftr_nonneg. cbn. lia.
Qed.

Lemma Math_round_sign_clear (x : number) :
  sign_clear x = true -> sign_clear (Math_round x) = true.
Proof.
  destruct x as [[|]|[|]| |[|] m e]; try discriminate; intros _;
    try reflexivity.
  unfold Math_round. destruct (Z.leb_spec 0 e) as [|He]; [reflexivity|].
  apply int_result_sign_clear. apply Z.shiftr_nonneg.
  rewrite Z.shiftl_mul_pow2 by lia.
  assert (0 < 2 ^ (- e)) by (apply Z.pow_pos_nonneg; lia).
  cbn [signed cond_Zopp]. lia.
Qed.

Lemma mul_sign_clear (x : number) (m : positive) (e : Z) :
  sign_clear x = true ->
  sign_clear (mul x (S754_finite false m e)) = true.
Proof.
  destruct x as [[|]|[|]| |[|] mx ex]; try discriminate; intros _;
    try reflexivity.
  unfold mul, SFmul. apply binary_round_aux_sign_clear. lia.
Qed.

Lemma div_sign_clear (x : number) (m : positive) (e : Z) :
  sign_clear x = true ->
  sign_clear (div x (S754_finite false m e)) = true.
Proof.
  destruct x as [[|]|[|]| |[|] mx ex]; try discriminate; intros _;
    try reflexivity.
  unfold div, SFdiv.
  destruct (SFdiv_core_binary_fit mx m ex e)
    as (q & e' & l & -> & Hq & _).
  apply binary_round_aux_sign_clear, Hq.
Qed.

(** X4: a non-negative argument ([+0], a positive number or [+Infinity])
    is never turned into a negative number or into NaN: the results of
    [truncateTo3Decimals] and of [roundToNearest5] are again [+0],
    positive or [+Infinity]. *)
Theorem valuation_keeps_sign_clear (x : number)
  (Hx : sign_clear x = true) :
  sign_clear (truncateTo3Decimals x) = true
  /\ sign_clear (roundToNearest5 x) = true.
Proof.
  split.
  - unfold truncateTo3Decimals.
    change (of_int 1000) with (S754_finite false 8796093022208000 (-43)).
    apply div_sign_clear, Math_floor_sign_clear, mul_sign_clear, Hx.
  - unfold roundToNearest5.
    change (of_int 5) with (S754_finite false 5629499534213120 (-50)).
    apply mul_sign_clear, Math_round_sign_clear, div_sign_clear, Hx.
Qed.

Lemma valuation_keeps_sign_clear_witness :
  sign_clear (truncateTo3Decimals (dec 1 4)) = true
  /\ sign_clear (roundToNearest5 (dec 24 1)) = true.
Proof.
  split.
  - apply (valuation_keeps_sign_clear (dec 1 4)). reflexivity.
  - apply (valuation_keeps_sign_clear (dec 24 1)). reflexivity.
Defined.

End ValuationMore.

(* ===================================================================== *)
(** ** Differences of integers and the balance of the form                 *)
(* ===================================================================== *)

Section BalanceFacts.
Import JS NewTransaction.

Lemma canon_of_finite (s : bool) (n N : positive) (e : Z) :
  Z.pos n < 2 ^ 53 ->
  Z.pos N = Z.pos n * 2 ^ (52 - Z.log2 (Z.pos n)) ->
  e = Z.log2 (Z.pos n) - 52 ->
  S754_finite s N e = canon s n.
Proof.
  intros Hn HN ->.
  destruct (canon_spec s n Hn) as (N' & -> & HN' & _).
  f_equal. apply Pos2Z.inj. congruence.
Qed.

(** Normalising [n * 2^k] at the exponent [-k] gives the integer [n]. *)
Lemma binary_round_integer (s : bool) (q n : positive) (k : Z) :
  0 <= k -> Z.pos q = Z.pos n * 2 ^ k -> Z.pos n < 2 ^ 53 ->
  binary_round prec emax s q (- k) = canon s n.
Proof.
  intros Hk Hq Hn. pose proof (log2_below_2p53 n Hn) as Hlog.
  destruct (canon_spec s n Hn) as (N & Hcanon & HN & HdN).
  assert (Hdq : Z.pos (digits2_pos q) = Z.log2 (Z.pos n) + 1 + k).
  { rewrite digits2_pos_log2, Hq, Z.log2_mul_pow2 by lia. lia. }
  unfold binary_round. rewrite Hdq, fexp_normal by lia.
  replace (Z.log2 (Z.pos n) + 1 + k + - k - 53)
    with (Z.log2 (Z.pos n) - 52) by lia.
  unfold shl_align.
  destruct (Z.log2 (Z.pos n) - 52 - - k) as [|j|j] eqn:Hj.
  - (* already aligned *)
    assert (q = N) as ->.
    { apply Pos2Z.inj. rewrite Hq, HN. f_equal. f_equal. lia. }
    rewrite binary_round_aux_aligned by (assumption || lia).
    rewrite Hcanon. f_equal. lia.
  - (* too many digits: the low ones are zero *)
    assert (Hq' : Z.pos q = Z.pos N * 2 ^ Z.pos j).
    { rewrite Hq, HN, <- Z.mul_assoc, <- Z.pow_add_r by lia.
      f_equal. f_equal. lia. }
    rewrite Hq', binary_round_aux_exact by (assumption || lia).
    rewrite Hcanon. f_equal. lia.
  - (* too few digits: shifted left *)
    assert (Pos.iter xO q j = N) as ->.
    { apply Pos2Z.inj. rewrite iter_xO_pow2, Hq, HN.
      rewrite <- Z.mul_assoc, <- Z.pow_add_r by lia.
      f_equal. f_equal. lia. }
    rewrite binary_round_aux_aligned by (assumption || lia).
    symmetry. exact Hcanon.
Qed.

Lemma shl_align_value (m : positive) (e e' : Z) :
  e' <= e ->
  Z.pos (fst (shl_align m e e')) = Z.pos m * 2 ^ (e - e').
Proof.
  intros He. unfold shl_align.
  destruct (e' - e) as [|j|j] eqn:Hj; cbn [fst].
  - replace (e - e') with 0 by lia. lia.
  - lia.
  - rewrite iter_xO_pow2. f_equal. f_equal. lia.
Qed.

(** The aligned mantissa of the integer [n] at an exponent [e'] not above
    its own is [n * 2^(-e')]. *)
Lemma canon_aligned (s : bool) (n : positive) (e' : Z) :
  Z.pos n < 2 ^ 53 -> e' <= Z.log2 (Z.pos n) - 52 ->
  exists N,
    canon s n = S754_finite s N (Z.log2 (Z.pos n) - 52)
    /\ Z.pos (fst (shl_align N (Z.log2 (Z.pos n) - 52) e'))
       = Z.pos n * 2 ^ (- e').
Proof.
  intros Hn He'. pose proof (log2_below_2p53 n Hn) as Hlog.
  destruct (canon_spec s n Hn) as (N & Hcanon & HN & _).
  exists N. split; [exact Hcanon|].
  rewrite shl_align_value, HN by lia.
  rewrite <- Z.mul_assoc, <- Z.pow_add_r by lia.
  f_equal. f_equal. lia.
Qed.

Lemma sub_canon (sa sb : bool) (a b : positive) :
  Z.pos a < 2 ^ 53 -> Z.pos b < 2 ^ 53 ->
  - 2 ^ 53 < cond_Zopp sa (Z.pos a) - cond_Zopp sb (Z.pos b) < 2 ^ 53 ->
  sub (canon sa a) (canon sb b)
  = of_int (cond_Zopp sa (Z.pos a) - cond_Zopp sb (Z.pos b)).
Proof.
  intros Ha Hb Hd.
  pose proof (log2_below_2p53 a Ha) as Hla.
  pose proof (log2_below_2p53 b Hb) as Hlb.
  set (ez := Z.min (Z.log2 (Z.pos a) - 52) (Z.log2 (Z.pos b) - 52)).
  destruct (canon_aligned sa a ez Ha ltac:(subst ez; lia))
    as (Na & -> & HNa).
  destruct (canon_aligned sb b ez Hb ltac:(subst ez; lia))
    as (Nb & -> & HNb).
  unfold sub, SFsub. fold ez.
  rewrite HNa, HNb.
  set (D := cond_Zopp sa (Z.pos a) - cond_Zopp sb (Z.pos b)) in *.
  assert (HP : 0 < 2 ^ (- ez)) by (apply Z.pow_pos_nonneg; subst ez; lia).
  replace (cond_Zopp sa (Z.pos a * 2 ^ (- ez))
           - cond_Zopp sb (Z.pos b * 2 ^ (- ez)))
    with (D * 2 ^ (- ez)) by (subst D; destruct sa, sb; cbn; lia).
  assert (Hez : 0 <= - ez) by (subst ez; lia).
  destruct D as [|d|d] eqn:HD.
  - reflexivity.
  - destruct (Z.pos d * 2 ^ (- ez)) as [|q|q] eqn:Hq; try lia.
    cbn [binary_normalize].
    pose proof (binary_round_integer false q d (- ez) Hez
                  ltac:(lia) ltac:(lia)) as Hround.
    rewrite Z.opp_involutive in Hround. rewrite Hround.
    symmetry. apply (of_int_canon false d). lia.
  - destruct (Z.neg d * 2 ^ (- ez)) as [|q|q] eqn:Hq; try lia.
    cbn [binary_normalize].
    pose proof (binary_round_integer true q d (- ez) Hez
                  ltac:(lia) ltac:(lia)) as Hround.
    rewrite Z.opp_involutive in Hround. rewrite Hround.
    symmetry. apply (of_int_canon true d). lia.
Qed.

(** The difference of two integers, when it and they are below [2^53] in
    magnitude, is computed exactly. *)
Lemma sub_of_int (a b : Z) :
  - 2 ^ 53 < a < 2 ^ 53 -> - 2 ^ 53 < b < 2 ^ 53 ->
  - 2 ^ 53 < a - b < 2 ^ 53 ->
  sub (of_int a) (of_int b) = of_int (a - b).
Proof.
  intros Ha Hb Hd.
  destruct a as [|pa|pa], b as [|pb|pb]; try reflexivity.
  - (* 0 - b *)
    change (of_int (Z.pos pb)) with (of_int (cond_Zopp false (Z.pos pb))).
    rewrite (of_int_canon false pb) by lia.
    change (0 - Z.pos pb) with (cond_Zopp true (Z.pos pb)).
    rewrite (of_int_canon true pb) by lia.
    unfold canon. destruct (shl_align pb 0 _). reflexivity.
  - change (of_int (Z.neg pb)) with (of_int (cond_Zopp true (Z.pos pb))).
    rewrite (of_int_canon true pb) by lia.
    change (0 - Z.neg pb) with (cond_Zopp false (Z.pos pb)).
    rewrite (of_int_canon false pb) by lia.
    unfold canon. destruct (shl_align pb 0 _). reflexivity.
  - (* a - 0 *)
    rewrite Z.sub_0_r.
    change (of_int (Z.pos pa)) with (of_int (cond_Zopp false (Z.pos pa))).
    rewrite (of_int_canon false pa) by lia.
    unfold canon. destruct (shl_align pa 0 _). reflexivity.
  - change (Z.pos pa) with (cond_Zopp false (Z.pos pa)).
    change (Z.pos pb) with (cond_Zopp false (Z.pos pb)).
    rewrite (of_int_canon false pa), (of_int_canon false pb) by lia.
    apply sub_canon; cbn; lia.
  - change (Z.pos pa) with (cond_Zopp false (Z.pos pa)).
    change (Z.neg pb) with (cond_Zopp true (Z.pos pb)).
    rewrite (of_int_canon false pa), (of_int_canon true pb) by lia.
    apply sub_canon; cbn; lia.
  - rewrite Z.sub_0_r.
    change (of_int (Z.neg pa)) with (of_int (cond_Zopp true (Z.pos pa))).
    rewrite (of_int_canon true pa) by lia.
    unfold canon. destruct (shl_align pa 0 _). reflexivity.
  - change (Z.neg pa) with (cond_Zopp true (Z.pos pa)).
    change (Z.pos pb) with (cond_Zopp false (Z.pos pb)).
    rewrite (of_int_canon true pa), (of_int_canon false pb) by lia.
    apply sub_canon; cbn; lia.
  - change (Z.neg pa) with (cond_Zopp true (Z.pos pa)).
    change (Z.neg pb) with (cond_Zopp true (Z.pos pb)).
    rewrite (of_int_canon true pa), (of_int_canon true pb) by lia.
    apply sub_canon; cbn; lia.
Qed.

Lemma truthy_of_int (n : Z) :
  - 2 ^ 53 < n < 2 ^ 53 -> n <> 0 -> truthy (of_int n) = true.
Proof.
  intros Hn Hne.
  destruct n as [|p|p]; [congruence| |].
  - change (Z.pos p) with (cond_Zopp false (Z.pos p)).
    rewrite (of_int_canon false p) by lia.
    destruct (canon_spec false p ltac:(lia)) as (N & -> & _). reflexivity.
  - change (Z.neg p) with (cond_Zopp true (Z.pos p)).
    rewrite (of_int_canon true p) by lia.
    destruct (canon_spec true p ltac:(lia)) as (N & -> & _). reflexivity.
Qed.

Lemma compare_of_int_zero (n : Z) :
  - 2 ^ 53 < n < 2 ^ 53 ->
  lt (of_int 0) (of_int n) = (0 <? n)
  /\ lt (of_int n) (of_int 0) = (n <? 0).
Proof.
  intros Hn. destruct n as [|p|p].
  - split; reflexivity.
  - change (Z.pos p) with (cond_Zopp false (Z.pos p)) at 1 3.
    rewrite (of_int_canon false p) by lia.
    destruct (canon_spec false p ltac:(lia)) as (N & -> & _).
    split; reflexivity.
  - change (Z.neg p) with (cond_Zopp true (Z.pos p)) at 1 3.
    rewrite (of_int_canon true p) by lia.
    destruct (canon_spec true p ltac:(lia)) as (N & -> & _).
    split; reflexivity.
Qed.

Lemma derivation_effect_balance (st : State) :
  balance (derivation_effect st)
  = match amount (form st), paidAmount (form st) with
    | Some a, Some paid => if truthy a then Some (sub a paid) else None
    | _, _ => None
    end.
Proof.
  unfold derivation_effect.
  destruct (amount (form st)) as [a|], (paidAmount (form st)) as [paid|];
    try reflexivity.
  destruct (truthy a); reflexivity.
Qed.

(** X5: for whole-number amounts the balance of the form is exact and
    its caption follows its sign: with an amount [a <> 0] and a paid amount [p]
    (integers, below [2^53] in magnitude like their difference) the effect
    sets the balance to [a - p]; the caption is "Amount due" when
    [a > p], "Overpaid" when [a < p] and "Fully paid" when [a = p]. *)
Theorem whole_number_balance (st : State) (a p : Z)
  (Hamount : amount (form st) = Some (of_int a))
  (Hpaid : paidAmount (form st) = Some (of_int p))
  (Hne : a <> 0)
  (Ha : - 2 ^ 53 < a < 2 ^ 53)
  (Hp : - 2 ^ 53 < p < 2 ^ 53)
  (Hd : - 2 ^ 53 < a - p < 2 ^ 53) :
  balance (derivation_effect st) = Some (of_int (a - p))
  /\ balance_caption (of_int (a - p))
     = (if p <? a then "Amount due"%string
        else if a <? p then "Overpaid"%string else "Fully paid"%string).
Proof.
  split.
  - rewrite derivation_effect_balance, Hamount, Hpaid.
    rewrite truthy_of_int, sub_of_int by assumption. reflexivity.
  - unfold balance_caption.
    destruct (compare_of_int_zero (a - p) Hd) as [-> ->].
    destruct (Z.ltb_spec 0 (a - p)), (Z.ltb_spec p a); try lia;
      [reflexivity|].
    destruct (Z.ltb_spec (a - p) 0), (Z.ltb_spec a p); try lia; reflexivity.
Qed.

Lemma whole_number_balance_witness :
  let st paid :=
    Examples.entered
      (mkValues "42" cash_received None None None
                (Some (of_int 100)) (Some (of_int paid))) in
  (balance (derivation_effect (st 60)) = Some (of_int 40)
   /\ balance_caption (of_int 40) = "Amount due"%string)
  /\ (balance (derivation_effect (st 120)) = Some (of_int (-20))
      /\ balance_caption (of_int (-20)) = "Overpaid"%string)
  /\ (balance (derivation_effect (st 100)) = Some (of_int 0)
      /\ balance_caption (of_int 0) = "Fully paid"%string).
Proof.
  intros st.
  split; [|split].
  - apply (whole_number_balance (st 60) 100 60); try reflexivity; lia.
  - apply (whole_number_balance (st 120) 100 120); try reflexivity; lia.
  - apply (whole_number_balance (st 100) 100 100); try reflexivity; lia.
Defined.

(** X6: a paid amount that is NaN (what [valueAsNumber] gives for an
    emptied input) is not [undefined]: with a non-zero amount the effect
    sets the balance to NaN, whose caption is "Fully paid", since NaN is
    neither above nor below 0.  The schema rejects such a form. *)
Theorem nan_paid_amount_reads_fully_paid (st : State) (a : number)
  (Hamount : amount (form st) = Some a)
  (Ha : truthy a = true)
  (Hpaid : paidAmount (form st) = Some NaN) :
  balance (derivation_effect st) = Some NaN
  /\ balance_caption NaN = "Fully paid"%string
  /\ transactionSchema (form st) = None.
Proof.
  split; [|split; [reflexivity|]].
  - rewrite derivation_effect_balance, Hamount, Hpaid, Ha.
    destruct a; reflexivity.
  - unfold transactionSchema. rewrite Hpaid. cbn.
    rewrite !andb_false_r. reflexivity.
Qed.

Lemma nan_paid_amount_reads_fully_paid_witness :
  balance (derivation_effect
             (Examples.entered
                (mkValues "42" sale None None None
                          (Some (of_int 100)) (Some NaN))))
  = Some NaN.
Proof.
  apply (nan_paid_amount_reads_fully_paid _ (of_int 100)); reflexivity.
Defined.

End BalanceFacts.

(* ===================================================================== *)
(** ** Further properties of the API service                               *)
(* ===================================================================== *)

Section ApiServiceMore.
Import JS ApiService.
Context {Data Body : Type}.
Variable network : nat -> Request Body -> completion (Response Data) * Z.
Variable ledgerId : Body -> string.
Variable encodeURIComponent : string -> completion string.
Variable name_object : string -> Body.

Local Abbreviation World := (World Data Body).

(** The [try]/[catch] shape shared by the endpoints that do not use the
    cache, once the fetch has settled. *)
Lemma uncached_endpoint_run
      (req : Request Body) (describe : string -> string)
      (label failure : string) (w : World)
      (outcome : completion (Response Data)) (elapsed : Z) :
  network (length (fetched w)) req = (outcome, elapsed) ->
  try_catch
    (let* response := fetch network req in
     if negb (ok response)
     then throw (mkError (describe (statusText response)))
     else
       let* data := response_json response in
       ret data)
    (fun error =>
       let* _ := console_error label error in
       throw (mkError failure)) w
  = match settled describe outcome with
    | Return d =>
        (mkWorld (ledgerCache w) (clock w + elapsed) (fetched w ++ [req])
                 (console w),
         Return d)
    | Throw e =>
        (mkWorld (ledgerCache w) (clock w + elapsed) (fetched w ++ [req])
                 (console w ++ [LogError label e]),
         Throw (mkError failure))
    end.
Proof.
  intros Hnet.
  unfold try_catch, bind, fetch, throw, console_error. rewrite Hnet.
  destruct outcome as [response|e]; simpl; [|reflexivity].
  destruct (ok response); simpl; [|reflexivity].
  unfold response_json. destruct (json response); reflexivity.
Qed.

(** The requests of the endpoints. *)
Lemma getLedgers_run (q : option string) (w : World)
      (outcome : completion (Response Data)) (elapsed : Z) :
  network (length (fetched w))
          (mkRequest (API_BASE_URL +:+ "/api/ledgers") None)
  = (outcome, elapsed) ->
  getLedgers network q w
  = match settled (fun status => "Error fetching ledgers: " +:+ status)
                  outcome with
    | Return d =>
        (mkWorld (ledgerCache w) (clock w + elapsed)
                 (fetched w
                    ++ [mkRequest (API_BASE_URL +:+ "/api/ledgers") None])
                 (console w),
         Return d)
    | Throw e =>
        (mkWorld (ledgerCache w) (clock w + elapsed)
                 (fetched w
                    ++ [mkRequest (API_BASE_URL +:+ "/api/ledgers") None])
                 (console w ++ [LogError "Error fetching ledgers:" e]),
         Throw (mkError "Failed to fetch ledgers"))
    end.
Proof.
  intros Hnet. unfold getLedgers.
  exact (uncached_endpoint_run _ (fun status =>
                                    "Error fetching ledgers: " +:+ status)
                               _ _ w outcome elapsed Hnet).
Qed.


(** What every endpoint of this shape guarantees. *)
Lemma uncached_endpoint_facts
      (req : Request Body) (describe : string -> string)
      (label failure : string) (w : World)
      (c : gmap string (CacheEntry Data)) :
  let run :=
    try_catch
      (let* response := fetch network req in
       if negb (ok response)
       then throw (mkError (describe (statusText response)))
       else
         let* data := response_json response in
         ret data)
      (fun error =>
         let* _ := console_error label error in
         throw (mkError failure)) in
  fetched (fst (run w)) = fetched w ++ [req]
  /\ ledgerCache (fst (run w)) = ledgerCache w
  /\ snd (run w)
     = snd (run (mkWorld c (clock w) (fetched w) (console w)))
  /\ match snd (run w) with
     | Return _ => console (fst (run w)) = console w
     | Throw e =>
         e = mkError failure
         /\ exists cause,
             console (fst (run w)) = console w ++ [LogError label cause]
     end.
Proof.
  intros run. subst run.
  destruct (network (length (fetched w)) req) as [outcome elapsed] eqn:Hnet.
  rewrite (uncached_endpoint_run req describe label failure w
                                 outcome elapsed Hnet).
  rewrite (uncached_endpoint_run
             req describe label failure
             (mkWorld c (clock w) (fetched w) (console w))
             outcome elapsed Hnet).
  destruct (settled describe outcome) as [d|e]; cbn.
  - repeat split.
  - repeat split. exists e. reflexivity.
Qed.

(** X7: [getLedgers], [createLedger] and [getLedgerTransactions] send
    exactly one request per call, [GET /api/ledgers],
    [POST /api/ledgers] with the body [{ name }] and
    [GET /api/ledgers/<id>/transactions], and they neither read nor
    write the ledger cache: the cache is left as it was and the outcome
    is the same whatever the cache holds. *)
Theorem uncached_endpoints_bypass_cache
  (w : World) (c : gmap string (CacheEntry Data))
  (q : option string) (name id : string) :
  let w_c := mkWorld c (clock w) (fetched w) (console w) in
  (fetched (fst (getLedgers network q w))
   = fetched w ++ [mkRequest "http://localhost:8080/api/ledgers" None]
   /\ ledgerCache (fst (getLedgers network q w)) = ledgerCache w
   /\ snd (getLedgers network q w) = snd (getLedgers network q w_c))
  /\ (fetched (fst (createLedger network name_object name w))
      = fetched w
          ++ [mkRequest "http://localhost:8080/api/ledgers"
                        (Some (mkInit "POST"
                                      [("Content-Type", "application/json")]
                                      (name_object name)))]
      /\ ledgerCache (fst (createLedger network name_object name w))
         = ledgerCache w
      /\ snd (createLedger network name_object name w)
         = snd (createLedger network name_object name w_c))
  /\ (fetched (fst (getLedgerTransactions network id w))
      = fetched w
          ++ [mkRequest ("http://localhost:8080/api/ledgers/" +:+ id
                           +:+ "/transactions") None]
      /\ ledgerCache (fst (getLedgerTransactions network id w))
         = ledgerCache w
      /\ snd (getLedgerTransactions network id w)
         = snd (getLedgerTransactions network id w_c)).
Proof.
  intros w_c. subst w_c. split; [|split].
  - destruct (uncached_endpoint_facts
                (mkRequest (API_BASE_URL +:+ "/api/ledgers") None)
                (fun status => "Error fetching ledgers: " +:+ status)
                "Error fetching ledgers:" "Failed to fetch ledgers" w c)
      as (Hsent & Hcache & Hsame & _).
    split; [exact Hsent|]. split; [exact Hcache|exact Hsame].
  - destruct (uncached_endpoint_facts
                (mkRequest (API_BASE_URL +:+ "/api/ledgers")
                           (Some (mkInit "POST"
                                         [("Content-Type",
                                           "application/json")]
                                         (name_object name))))
                (fun status => "Error creating ledger: " +:+ status)
                "Error creating ledger:" "Failed to create ledger" w c)
      as (Hsent & Hcache & Hsame & _).
    split; [exact Hsent|]. split; [exact Hcache|exact Hsame].
  - destruct (uncached_endpoint_facts
                (mkRequest (API_BASE_URL +:+ "/api/ledgers/" +:+ id
                              +:+ "/transactions") None)
                (fun status => "Error fetching transactions for ledger "
                                 +:+ id +:+ ": " +:+ status)
                ("Error fetching transactions for ledger " +:+ id +:+ ":")
                "Failed to fetch transactions" w c)
      as (Hsent & Hcache & Hsame & _).
    split; [exact Hsent|]. split; [exact Hcache|exact Hsame].
Qed.

(** X8: [searchLedgers] encodes the query before it fetches.  When
    [encodeURIComponent] returns, one request is sent, to
    [/api/ledgers/search?q=] followed by the encoded query, and the cache
    is left alone.  When it throws (a query with a lone surrogate), no
    request is sent at all: the [URIError] is written to the console and
    the caller gets "Failed to search ledgers". *)
Theorem searchLedgers_encodes_then_fetches (query : string) (w : World) :
  let run := searchLedgers network encodeURIComponent query w in
  match encodeURIComponent query with
  | Return encoded =>
      fetched (fst run)
      = fetched w
          ++ [mkRequest ("http://localhost:8080/api/ledgers/search?q="
                           +:+ encoded) None]
      /\ ledgerCache (fst run) = ledgerCache w
  | Throw uri_error =>
      run = (mkWorld (ledgerCache w) (clock w) (fetched w)
                     (console w
                        ++ [LogError "Error searching ledgers:" uri_error]),
             Throw (mkError "Failed to search ledgers"))
  end.
Proof.
  intros run. subst run. unfold searchLedgers.
  destruct (encodeURIComponent query) as [encoded|uri_error] eqn:Henc.
  - destruct (uncached_endpoint_facts
                (mkRequest (API_BASE_URL +:+ "/api/ledgers/search?q="
                              +:+ encoded) None)
                (fun status => "Error searching ledgers: " +:+ status)
                "Error searching ledgers:" "Failed to search ledgers" w
                (ledgerCache w))
      as (Hsent & Hcache & _).
    split; [exact Hsent|exact Hcache].
  - reflexivity.
Qed.

(** Either outcome of [getLedger]: the world is left as it was (a hit),
    or it is the one of a miss. *)
Lemma getLedger_with_cases (ttl : Z) (id : string) (w : World) :
  (exists entry,
      ledgerCache w !! id = Some entry
      /\ clock w - timestamp entry < ttl
      /\ getLedger_with network ttl id w = (w, Return (data entry)))
  \/ (fresh ttl id w = false
      /\ exists outcome elapsed,
          network (length (fetched w)) (ledger_request id)
          = (outcome, elapsed)
          /\ getLedger_with network ttl id w
             = match settled (fun status =>
                                "Error fetching ledger " +:+ id +:+ ": "
                                  +:+ status)
                             outcome with
               | Return d =>
                   (mkWorld (<[id := mkEntry d (clock w + elapsed)]>
                               (ledgerCache w))
                            (clock w + elapsed)
                            (fetched w ++ [ledger_request id]) (console w),
                    Return d)
               | Throw e =>
                   (mkWorld (ledgerCache w) (clock w + elapsed)
                            (fetched w ++ [ledger_request id])
                            (console w
                               ++ [LogError ("Error fetching ledger " +:+ id
                                               +:+ ":") e]),
                    Throw (mkError "Failed to fetch ledger"))
               end).
Proof.
  destruct (fresh ttl id w) eqn:Hfresh.
  - left. unfold fresh in Hfresh.
    destruct (ledgerCache w !! id) as [entry|] eqn:Hget; [|discriminate].
    apply Z.ltb_lt in Hfresh.
    exists entry. split; [reflexivity|]. split; [exact Hfresh|].
    apply getLedger_with_hit; assumption.
  - right. split; [reflexivity|].
    destruct (network (length (fetched w)) (ledger_request id))
      as [outcome elapsed] eqn:Hnet.
    exists outcome, elapsed. split; [reflexivity|].
    apply getLedger_with_miss; assumption.
Qed.


(** X10: [getLedger] touches no entry but the one asked for, and it never
    removes an entry: the entries of the other ledgers are as before, an
    entry that existed for [id] still exists afterwards, and when the
    call throws the whole cache, an expired entry for [id] included, is
    exactly as it was. *)
Theorem getLedger_keeps_other_entries
  (ttl : Z) (id : string) (w : World) :
  let w' := fst (getLedger_with network ttl id w) in
  (forall other, other <> id ->
                 ledgerCache w' !! other = ledgerCache w !! other)
  /\ (is_Some (ledgerCache w !! id) -> is_Some (ledgerCache w' !! id))
  /\ (forall e, snd (getLedger_with network ttl id w) = Throw e ->
                ledgerCache w' = ledgerCache w).
Proof.
  intros w'. subst w'.
  destruct (getLedger_with_cases ttl id w)
    as [(entry & _ & _ & ->) | (_ & outcome & elapsed & _ & ->)].
  - cbn. repeat split; auto.
  - destruct (settled _ outcome) as [d|e]; cbn.
    + split; [|split].
      * intros other Hother. apply lookup_insert_ne. congruence.
      * intros _. rewrite lookup_insert_eq. eexists. reflexivity.
      * intros e [=].
    + repeat split; auto.
Qed.


(** X12: a failed write leaves the snapshot in use.  When
    [createTransaction] throws, a [getLedger] of the same ledger made
    while the cached entry is younger than the TTL sends no request and
    returns the cached data, as if the write had not been tried. *)
Theorem failed_write_keeps_snapshot
  (ttl t : Z) (transaction : Body) (w : World) (e : Error)
  (entry : CacheEntry Data)
  (Hfailed : snd (createTransaction network ledgerId transaction w)
             = Throw e)
  (Hentry : ledgerCache w !! ledgerId transaction = Some entry)
  (Hyoung : t - timestamp entry < ttl) :
  let w1 := at_time t (fst (createTransaction network ledgerId
                                              transaction w)) in
  getLedger_with network ttl (ledgerId transaction) w1
  = (w1, Return (data entry))
  /\ fetched w1 = fetched w ++ [transaction_request ledgerId transaction].
Proof.
  intros w1. subst w1. revert Hfailed.
  destruct (network (length (fetched w))
                    (transaction_request ledgerId transaction))
    as [outcome elapsed] eqn:Hnet.
  rewrite (createTransaction_run network ledgerId transaction w
                                 outcome elapsed Hnet).
  destruct (settled _ outcome) as [d|e']; cbn [fst snd]; [intros [=]|].
  intros _. split; [|reflexivity].
  apply getLedger_with_hit; cbn; assumption.
Qed.

End ApiServiceMore.

Section ApiServiceMoreExamples.
Import JS ApiService Examples.

Lemma getLedger_keeps_other_entries_witness :
  let w0 : World string unit := two_ledgers in
  ledgerCache (fst (getLedger_with (serving "fresh 42"%string)
                                   50 "42" w0)) !! "7"%string
  = Some (mkEntry "snapshot 7"%string 950)
  /\ is_Some (ledgerCache (fst (getLedger_with failing 50 "42" w0))
                !! "42"%string)
  /\ ledgerCache (fst (getLedger_with failing 50 "42" w0))
     = ledgerCache w0.
Proof.
  intros w0.
  destruct (getLedger_keeps_other_entries
              (serving "fresh 42"%string) 50 "42" w0) as (Hother & _ & _).
  destruct (getLedger_keeps_other_entries
              (Data := string) failing 50 "42" w0) as (_ & Hstays & Hthrow).
  split; [|split].
  - rewrite Hother; [reflexivity|discriminate].
  - apply Hstays. eexists. reflexivity.
  - apply (Hthrow (mkError "Failed to fetch ledger")). reflexivity.
Defined.


Lemma failed_write_keeps_snapshot_witness :
  let tx := NewTransaction.mkTransaction purchase_with_amount
                                         None None None in
  let ledgerId t := NewTransaction.ledgerId (NewTransaction.tx_data t) in
  let w0 : World string NewTransaction.TransactionObject := two_ledgers in
  let w1 := at_time 1500 (fst (createTransaction failing ledgerId tx w0)) in
  getLedger_with failing 300000 "42" w1
  = (w1, Return "snapshot 42"%string)
  /\ fetched w1 = [transaction_request ledgerId tx].
Proof.
  intros tx ledgerId w0 w1.
  apply (failed_write_keeps_snapshot
           failing ledgerId 300000 1500 tx w0
           (mkError "Failed to create transaction")
           (mkEntry "snapshot 42"%string 900)).
  - reflexivity.
  - reflexivity.
  - vm_compute. reflexivity.
Defined.

End ApiServiceMoreExamples.

(* ===================================================================== *)
(** ** Further properties of the new-transaction form                      *)
(* ===================================================================== *)

Section NewTransactionMore.
Import JS NewTransaction.

Lemma derivation_effect_roundedAmount (st : State) :
  roundedAmount (derivation_effect st)
  = match amount (form st) with
    | Some a => if truthy a then Some (roundToNearest5 a) else None
    | None => None
    end.
Proof.
  unfold derivation_effect.
  destruct (amount (form st)) as [a|], (paidAmount (form st)) as [paid|];
    try reflexivity; destruct (truthy a); reflexivity.
Qed.

Lemma derivation_effect_pureWeight (st : State) :
  pureWeight (derivation_effect st)
  = match grossWeight (form st), purity (form st) with
    | Some g, Some p =>
        if truthy g && truthy p && not_cash (type (form st))
        then truncateTo3Decimals (Some (mul g (div p (of_int 100))))
        else None
    | _, _ => None
    end.
Proof.
  destruct st as [[lid ty g p r a paid] pw ra bal sr].
  unfold derivation_effect; cbn.
  destruct g as [g|], p as [p|], r as [r|], a as [a|], paid as [paid|];
    cbn;
    repeat match goal with
      | |- context [truthy ?x] => destruct (truthy x); cbn
      | |- context [not_cash ?x] => destruct (not_cash x); cbn
      end; reflexivity.
Qed.

(** X13: the effect comes to rest after its second run, and what it
    then shows belongs to the form as it stands: a further run changes
    nothing, and the pure weight, the rounded amount and the balance
    are the ones computed from the final values of the form, the amount
    written by the effect itself included. *)
Theorem effect_settles_on_the_final_form (st : State) :
  let st' := settle st in
  let f := form st' in
  derivation_effect st' = st'
  /\ pureWeight st'
     = match grossWeight f, purity f with
       | Some g, Some p =>
           if truthy g && truthy p && not_cash (type f)
           then truncateTo3Decimals (Some (mul g (div p (of_int 100))))
           else None
       | _, _ => None
       end
  /\ roundedAmount st'
     = match amount f with
       | Some a => if truthy a then Some (roundToNearest5 a) else None
       | None => None
       end
  /\ balance st'
     = match amount f, paidAmount f with
       | Some a, Some paid => if truthy a then Some (sub a paid) else None
       | _, _ => None
       end.
Proof.
  intros st' f. subst st' f.
  pose proof (settle_stable st) as Hstable.
  split; [exact Hstable|].
  split; [|split].
  - rewrite <- Hstable at 1. rewrite derivation_effect_pureWeight.
    reflexivity.
  - rewrite <- Hstable at 1. apply derivation_effect_roundedAmount.
  - rewrite <- Hstable at 1. apply derivation_effect_balance.
Qed.

(** The amount the effect derives is a fixed point of the rounding, as
    long as the product it rounds is at most [2^52]. *)
Lemma roundToNearest5_twice_small (x : number) :
  valid_binary prec emax x = true ->
  le (Math_abs x) (of_int (2 ^ 52)) = true ->
  roundToNearest5 (roundToNearest5 x) = roundToNearest5 x.
Proof.
  intros Hval Hrange.
  assert (Hfin : isFinite x = true)
    by (destruct x as [s|[|]| |s m e]; try reflexivity;
        vm_compute in Hrange; discriminate Hrange).
  destruct (Math_round_div_5_small x Hval Hfin Hrange)
    as (s & k & Hround & Hk).
  exact (roundToNearest5_idempotent_exact x s k Hround Hk).
Qed.

(** X14: a derived amount needs no further rounding.  When the effect
    derives the amount from a pure weight [pw] and a rate [r] whose
    product is at most [2^52], the form's amount is
    [roundToNearest5(pw × r)], and the rounded amount shown beside it is
    that same number (or nothing, when the derived amount is 0); the pure
    weight shown is [pw]. *)
Theorem derived_amount_is_already_rounded
  (st : State) (g p r pw : number)
  (Hg : grossWeight (form st) = Some g)
  (Hp : purity (form st) = Some p)
  (Hr : rate (form st) = Some r)
  (Tg : truthy g = true) (Tp : truthy p = true) (Tr : truthy r = true)
  (Hty : not_cash (type (form st)) = true)
  (Hpw : truncateTo3Decimals (Some (mul g (div p (of_int 100)))) = Some pw)
  (Tpw : truthy pw = true)
  (Hvalid : valid_binary prec emax r = true)
  (Hrange : le (Math_abs (mul pw r)) (of_int (2 ^ 52)) = true) :
  let derived := roundToNearest5 (mul pw r) in
  amount (form (settle st)) = Some derived
  /\ roundedAmount (settle st)
     = (if truthy derived then Some derived else None)
  /\ pureWeight (settle st) = Some pw.
Proof.
  intros derived.
  assert (Hamount : amount (form (settle st)) = Some derived).
  { rewrite settle_amount. unfold auto_amount.
    rewrite Hg, Hp, Hr, Tg, Tp, Hty. cbn [andb].
    rewrite Hpw, Tr, Tpw. reflexivity. }
  assert (Hform : grossWeight (form (settle st)) = Some g
                  /\ purity (form (settle st)) = Some p
                  /\ type (form (settle st)) = type (form st)).
  { unfold settle. rewrite derivation_effect_form_twice.
    rewrite derivation_effect_form.
    destruct (auto_amount (form st)); cbn; auto. }
  destruct Hform as (Hg' & Hp' & Hty').
  pose proof (settle_stable st) as Hstable.
  split; [exact Hamount|]. split.
  - rewrite <- Hstable at 1.
    rewrite derivation_effect_roundedAmount, Hamount.
    destruct (truthy derived); [|reflexivity].
    f_equal. apply roundToNearest5_twice_small; [|exact Hrange].
    apply mul_valid; [|exact Hvalid].
    cbn in Hpw. injection Hpw as <-. apply div_valid.
  - rewrite <- Hstable at 1.
    rewrite derivation_effect_pureWeight, Hg', Hp', Hty', Tg, Tp, Hty.
    exact Hpw.
Qed.


(** X16: the metal types derive an amount that the form does not show.
    For [metal_received] and [metal_given], the types whose amount field
    is hidden, the weight fields and the rate are shown and the effect
    runs its derivation as for a sale: with a gross weight, a purity, a
    rate and a resulting pure weight that are non-zero, the form's amount
    becomes [roundToNearest5(pureWeight × rate)]. *)
Theorem hidden_amount_is_still_derived
  (st : State) (g p r pw : number)
  (Hhidden : showAmountField (type (form st)) = false)
  (Hg : grossWeight (form st) = Some g)
  (Hp : purity (form st) = Some p)
  (Hr : rate (form st) = Some r)
  (Tg : truthy g = true) (Tp : truthy p = true) (Tr : truthy r = true)
  (Hpw : truncateTo3Decimals (Some (mul g (div p (of_int 100)))) = Some pw)
  (Tpw : truthy pw = true) :
  showWeightFields (type (form st)) = true
  /\ amount (form (derivation_effect st))
     = Some (roundToNearest5 (mul pw r)).
Proof.
  assert (Hnc : not_cash (type (form st)) = true)
    by (destruct (type (form st)); try reflexivity;
        vm_compute in Hhidden; discriminate Hhidden).
  split.
  - destruct (type (form st)); try reflexivity;
      vm_compute in Hhidden; discriminate Hhidden.
  - rewrite derivation_effect_amount. unfold auto_amount.
    rewrite Hg, Hp, Hr, Tg, Tp, Hnc. cbn [andb].
    rewrite Hpw, Tr, Tpw. reflexivity.
Qed.

End NewTransactionMore.

Section SubmissionMore.
Import JS ApiService NewTransaction.
Context {Data : Type}.
Variable network :
  nat -> Request TransactionObject -> completion (Response Data) * Z.



(** X18: only a valid form reaches the store.  [handleSubmit] sends
    nothing, or one POST to the transactions of the form's ledger whose
    body carries the form's values and the three cells; when it sends,
    the ledger id is not empty, no numeric field is NaN and a purity,
    when given, lies between 0 and 100. *)
Theorem only_valid_forms_are_submitted
  (st : State) (w : World Data TransactionObject) :
  let f := form st in
  let sent := fetched (fst (handleSubmit network st w)) in
  sent = fetched w
  \/ (sent
      = fetched w
          ++ [mkRequest
                ("http://localhost:8080/api/ledgers/" +:+ ledgerId f
                   +:+ "/transactions")
                (Some (mkInit "POST"
                              [("Content-Type", "application/json")]
                              (mkTransaction f (pureWeight st)
                                             (roundedAmount st)
                                             (balance st))))]
      /\ ledgerId f <> ""%string
      /\ grossWeight f <> Some NaN /\ purity f <> Some NaN
      /\ rate f <> Some NaN /\ amount f <> Some NaN
      /\ paidAmount f <> Some NaN
      /\ match purity f with
         | Some p => le (of_int 0) p = true /\ le p (of_int 100) = true
         | None => True
         end).
Proof.
  intros f sent. subst f sent. unfold handleSubmit.
  destruct (transactionSchema (form st)) as [data|] eqn:Hschema;
    [right|left; reflexivity].
  rewrite onSubmit_fetched, (transactionSchema_Some _ _ Hschema).
  split; [reflexivity|].
  unfold transactionSchema in Hschema.
  destruct (_ && _) eqn:Hchecks in Hschema; [|discriminate Hschema].
  apply andb_prop in Hchecks as [Hchecks Hpaid].
  apply andb_prop in Hchecks as [Hchecks Hamount].
  apply andb_prop in Hchecks as [Hchecks Hrate].
  apply andb_prop in Hchecks as [Hchecks Hpurity].
  apply andb_prop in Hchecks as [Hid Hgross].
  split; [intros Hempty; rewrite Hempty in Hid; discriminate Hid|].
  split; [intros Hnan; rewrite Hnan in Hgross; discriminate Hgross|].
  split; [intros Hnan; rewrite Hnan in Hpurity; discriminate Hpurity|].
  split; [intros Hnan; rewrite Hnan in Hrate; discriminate Hrate|].
  split; [intros Hnan; rewrite Hnan in Hamount; discriminate Hamount|].
  split; [intros Hnan; rewrite Hnan in Hpaid; discriminate Hpaid|].
  destruct (purity (form st)) as [p|]; [|exact I].
  cbn [optional] in Hpurity.
  apply andb_prop in Hpurity as [Hpurity Hmax].
  apply andb_prop in Hpurity as [_ Hmin].
  split; [exact Hmin|exact Hmax].
Qed.

End SubmissionMore.

Section NewTransactionMoreExamples.
Import JS ApiService NewTransaction Examples.

Lemma derived_amount_is_already_rounded_witness :
  let st := entered purchase_with_amount in
  amount (form (settle st)) = Some (of_int 495)
  /\ roundedAmount (settle st) = Some (of_int 495)
  /\ pureWeight (settle st) = Some (dec 995 2).
Proof.
  intros st.
  apply (derived_amount_is_already_rounded
           st (of_int 10) (dec 995 1) (of_int 50) (dec 995 2));
    vm_compute; reflexivity.
Defined.


Lemma hidden_amount_is_still_derived_witness :
  let st :=
    entered (mkValues "42" metal_received (Some (of_int 10))
                      (Some (dec 995 1)) (Some (of_int 50)) None None) in
  showAmountField (type (form st)) = false
  /\ showWeightFields (type (form st)) = true
  /\ amount (form (derivation_effect st))
     = Some (roundToNearest5 (mul (dec 995 2) (of_int 50))).
Proof.
  intros st. split; [reflexivity|].
  apply (hidden_amount_is_still_derived
           st (of_int 10) (dec 995 1) (of_int 50) (dec 995 2));
    vm_compute; reflexivity.
Defined.

Lemma only_valid_forms_are_submitted_witness :
  let w0 : World string TransactionObject := fresh_start in
  let net := serving "created"%string in
  let st := settle (entered purchase_with_amount) in
  fetched (fst (handleSubmit net st w0)) <> []
  /\ ledgerId (form st) <> ""%string
  /\ purity (form st) <> Some NaN.
Proof.
  intros w0 net st.
  destruct (only_valid_forms_are_submitted net st w0)
    as [Hnone | (_ & Hid & _ & Hpurity & _)].
  - vm_compute in Hnone. discriminate Hnone.
  - split; [vm_compute; discriminate|]. split; [exact Hid|exact Hpurity].
Defined.

End NewTransactionMoreExamples.

(* ===================================================================== *)
(** ** Properties of the dashboard and of the ledger search box            *)
(* ===================================================================== *)

Section DashboardFacts.
Import JS ApiService.
Context {Data Body : Type}.
Variable network : nat -> Request Body -> completion (Response Data) * Z.

(** X19: the dashboard never leaves its loading state after a failure.
    [fetchLedgers] always returns.  When [getLedgers] resolves, the
    ledgers are stored and [loading] becomes [false].  When it throws,
    the component is exactly as before, so a dashboard that was loading
    stays loading; the console gets two lines under the same label, the
    cause and then "Failed to fetch ledgers". *)
Theorem dashboard_keeps_loading_on_failure
  (st : Dashboard.State Data) (w : World Data Body) :
  let run := Dashboard.fetchLedgers network st w in
  let answer :=
    network (length (fetched w))
            (mkRequest "http://localhost:8080/api/ledgers" None) in
  fetched (fst run)
  = fetched w ++ [mkRequest "http://localhost:8080/api/ledgers" None]
  /\ match settled (fun status => "Error fetching ledgers: " +:+ status)
                   (fst answer) with
     | Return d =>
         snd run = Return (Dashboard.mkState d false)
         /\ console (fst run) = console w
     | Throw cause =>
         snd run = Return st
         /\ console (fst run)
            = console w
                ++ [LogError "Error fetching ledgers:" cause;
                    LogError "Error fetching ledgers:"
                             (mkError "Failed to fetch ledgers")]
     end.
Proof.
  intros run answer. subst run answer.
  unfold Dashboard.fetchLedgers, try_catch, bind.
  destruct (network (length (fetched w))
                    (mkRequest "http://localhost:8080/api/ledgers" None))
    as [outcome elapsed] eqn:Hnet.
  rewrite (getLedgers_run network None w outcome elapsed Hnet).
  cbn [fst].
  destruct (settled _ outcome) as [d|cause]; cbn.
  - repeat split.
  - rewrite <- app_assoc. repeat split.
Qed.

End DashboardFacts.

Section LedgerSearchFacts.
Import JS ApiService LedgerSearch.
Context {Data Body : Type}.
Variable network : nat -> Request Body -> completion (Response Data) * Z.
Variable name_object : string -> Body.

(** X20: the search box does not search.  Whatever text is typed, the
    effect sends the same request, [GET /api/ledgers] without the text,
    and ends in the same state: two search texts give the same run.  The
    effect always returns with [isSearching] back to [false]; the list is
    replaced by what the store sent when the request succeeds and kept
    as it was when it fails. *)
Theorem search_box_ignores_the_text
  (text text' : string) (st : State Data) (w : World Data Body) :
  let run := fetchLedgers network text st w in
  let answer :=
    network (length (fetched w))
            (mkRequest "http://localhost:8080/api/ledgers" None) in
  fetchLedgers network text' st w = run
  /\ fetched (fst run)
     = fetched w ++ [mkRequest "http://localhost:8080/api/ledgers" None]
  /\ snd run
     = Return
         (mkState (open st) (dialogOpen st) (searchValue st) false
                  match settled (fun status =>
                                   "Error fetching ledgers: " +:+ status)
                                (fst answer) with
                  | Return results => results
                  | Throw _ => ledgers st
                  end
                  (name st) (selected st)).
Proof.
  intros run answer. subst run answer.
  split; [reflexivity|].
  unfold fetchLedgers, try_catch, bind.
  destruct (network (length (fetched w))
                    (mkRequest "http://localhost:8080/api/ledgers" None))
    as [outcome elapsed] eqn:Hnet.
  rewrite (getLedgers_run network (Some text) w outcome elapsed Hnet).
  cbn [fst].
  destruct (settled _ outcome) as [results|cause]; cbn; split; reflexivity.
Qed.


End LedgerSearchFacts.

(* ===================================================================== *)
(** ** Pure gold                                                           *)
(* ===================================================================== *)

Section PureGold.
Import JS.

(** Rounding a subnormal mantissa that was shifted left by 52 bits. *)
Lemma binary_round_aux_subnormal (s : bool) (m : positive) :
  Zdigits2 (Z.pos m) <= 53 ->
  binary_round_aux prec emax s (Z.pos m * 2 ^ 52) (-1074 + -52) loc_Exact
  = S754_finite s m (-1074).
Proof.
  intros Hd. cbn [Zdigits2] in Hd.
  assert (Hfirst :
    shr_fexp prec emax (Z.pos m * 2 ^ 52) (-1074 + -52) loc_Exact
    = ({| shr_m := Z.pos m; shr_r := false; shr_s := false |}, -1074)).
  { change 52 with (Z.pos 52) at 1. rewrite <- iter_xO_pow2.
    unfold shr_fexp. cbn [Zdigits2 shr_record_of_loc].
    rewrite digits2_pos_iter_xO, fexp_unfold.
    replace (Z.max (Z.pos (digits2_pos m + 52) + (-1074 + -52) - 53)
                   (-1074)) with (-1074) by lia.
    change (-1074 - (-1074 + -52)) with (Z.pos 52).
    cbn [shr]. rewrite iter_pos_shr_1_exact. reflexivity. }
  unfold binary_round_aux. rewrite Hfirst.
  cbn [shr_m loc_of_shr_record round_nearest_even].
  unfold shr_fexp. cbn [Zdigits2 shr_record_of_loc].
  rewrite fexp_unfold.
  replace (Z.max (Z.pos (digits2_pos m) + -1074 - 53) (-1074))
    with (-1074) by lia.
  reflexivity.
Qed.

(** Multiplying by 1 is exact. *)
Lemma mul_one (x : number) :
  valid_binary prec emax x = true -> mul x (of_int 1) = x.
Proof.
  intros Hval.
  change (of_int 1) with (S754_finite false 4503599627370496 (-52)).
  destruct x as [s|s| |s m e]; cbn [mul SFmul].
  - unfold mul, SFmul. rewrite xorb_false_r. reflexivity.
  - unfold mul, SFmul. rewrite xorb_false_r. reflexivity.
  - reflexivity.
  - destruct (valid_binary_finite _ _ _ Hval) as (Hd & He & Hcase).
    unfold mul, SFmul. rewrite xorb_false_r, Pos2Z.inj_mul.
    change (Z.pos 4503599627370496) with (2 ^ 52).
    destruct Hcase as [Hfull | ->].
    + rewrite binary_round_aux_exact; [f_equal; lia| |lia|lia].
      cbn [Zdigits2] in Hfull. lia.
    + apply binary_round_aux_subnormal. lia.
Qed.

(** X22: pure gold keeps its weight.  With the purity 1 the pure weight
    computed by [calculatePureWeight] is the gross weight truncated to
    three decimals, and so is the pure weight the form shows with its
    default purity of 100 percent for a non-cash type and a non-zero gross
    weight: multiplying by [100 / 100] changes nothing. *)
Theorem pure_gold_keeps_its_weight (g : number)
  (Hval : valid_binary prec emax g = true) :
  LedgerUtils.calculatePureWeight g (of_int 1)
  = LedgerUtils.truncateTo3Decimals g
  /\ forall st : NewTransaction.State,
      NewTransaction.grossWeight (NewTransaction.form st) = Some g ->
      NewTransaction.purity (NewTransaction.form st) = Some (of_int 100) ->
      truthy g = true ->
      NewTransaction.not_cash (NewTransaction.type (NewTransaction.form st))
      = true ->
      NewTransaction.pureWeight (NewTransaction.derivation_effect st)
      = Some (LedgerUtils.truncateTo3Decimals g).
Proof.
  split.
  - unfold LedgerUtils.calculatePureWeight. rewrite mul_one by exact Hval.
    reflexivity.
  - intros st Hg Hp Tg Hty.
    rewrite derivation_effect_pureWeight, Hg, Hp, Tg, Hty.
    change (truthy (of_int 100)) with true. cbn [andb].
    change (div (of_int 100) (of_int 100)) with (of_int 1).
    rewrite mul_one by exact Hval. reflexivity.
Qed.

Lemma pure_gold_keeps_its_weight_witness :
  LedgerUtils.calculatePureWeight (dec 123456 4) (of_int 1) = dec 12345 3
  /\ NewTransaction.pureWeight
       (NewTransaction.derivation_effect
          (Examples.entered
             (NewTransaction.mkValues "42" NewTransaction.purchase
                (Some (dec 123456 4)) (Some (of_int 100)) None None None)))
     = Some (dec 12345 3).
Proof.
  destruct (pure_gold_keeps_its_weight (dec 123456 4) eq_refl)
    as (Hutil & Hform).
  split.
  - rewrite Hutil. vm_compute. reflexivity.
  - etransitivity; [apply Hform; reflexivity|].
    vm_compute. reflexivity.
Defined.

End PureGold.
